(** * Task-management API: validation pipeline and in-memory task store

    A shallow embedding of the TypeScript sources

      - [backend/src/models/task.model.ts]          (enumerations, Task, DTOs)
      - [backend/src/models/task.store.ts]          (class TaskStore)
      - [backend/src/middleware/taskValidation.ts]  (field validators, aggregators)
      - [backend/src/middleware/errorHandler.ts]    (error classifier)
      - [backend/src/controllers/task.controller.ts]
      - [backend/src/routes/task.routes.ts]         (middleware chains)

    followed by the properties of the specification, each proved, or
    refuted at a concrete input, over this embedding. *)

From Stdlib Require Import ZArith Ascii Lia.
From stdpp Require Import base option list strings gmap fin_maps.

Local Open Scope Z_scope.

(** ** The JavaScript runtime, as far as the program observes it *)

Module JS.

(** *** Strings

    A JavaScript string is a sequence of UTF-16 code units and [length]
    counts code units.  A [string] here is a sequence of 8-bit characters:
    it stands for the JavaScript strings all of whose code units are below
    256. *)

Definition length (s : string) : Z := Z.of_nat (String.length s).

(** The code units below 256 that [String.prototype.trim] removes:
    TAB, LF, VT, FF, CR, SPACE and NO-BREAK SPACE. *)
Definition isWhiteSpace (c : ascii) : bool :=
  match c with
  | "009" | "010" | "011" | "012" | "013" | " " | "160" => true
  | _ => false
  end%char.

Fixpoint trimStart (s : string) : string :=
  match s with
  | EmptyString => EmptyString
  | String c s' => if isWhiteSpace c then trimStart s' else s
  end.

Fixpoint trimEnd (s : string) : string :=
  match s with
  | EmptyString => EmptyString
  | String c s' =>
      match trimEnd s' with
      | EmptyString => if isWhiteSpace c then EmptyString else String c EmptyString
      | t => String c t
      end
  end.

(** [s.trim()] *)
Definition trim (s : string) : string := trimEnd (trimStart s).

(** [c] occurs in [s]. *)
Fixpoint occurs (c : ascii) (s : string) : bool :=
  match s with
  | EmptyString => false
  | String c' s' => if Ascii.eqb c c' then true else occurs c s'
  end.

(** *** Values

    The values a request body holds after [express.json()], and the ones
    the middleware writes back into it.  JSON numbers are kept when they
    are integral, which is all that [Date] construction looks at.  An array
    or plain object is kept as what its [ToPrimitive] conversion does, for
    the program never looks inside one: the string the conversion yields
    ([[]] gives the empty string, [["2030-01-01"]] gives [2030-01-01],
    [{}] gives [[object Object]]), or [None] where the conversion throws a
    [TypeError], as it does for [{"toString": 1}], whose own [toString] is
    not callable.  A [Date] object is its time value, [None] for [NaN]
    (an Invalid Date). *)
Inductive Value : Type :=
| VUndefined
| VNull
| VBool (b : bool)
| VNum (n : Z)
| VStr (s : string)
| VObject (toPrimitive : option string)
| VDate (tv : option Z).

Global Instance Value_eq_dec : EqDecision Value.
Proof. solve_decision. Defined.

Global Instance Value_inhabited : Inhabited Value := populate VUndefined.

(** ToBoolean *)
Definition truthy (v : Value) : bool :=
  match v with
  | VUndefined | VNull => false
  | VBool b => b
  | VNum n => negb (n =? 0)
  | VStr s => negb (String.eqb s "")
  | VObject _ | VDate _ => true
  end.

(** [v === undefined || v === null] *)
Definition isNullish (v : Value) : bool :=
  match v with
  | VUndefined | VNull => true
  | _ => false
  end.

(** [v !== undefined] *)
Definition isDefined (v : Value) : bool :=
  match v with
  | VUndefined => false
  | _ => true
  end.

(** [a || b] *)
Definition or (a b : Value) : Value := if truthy a then a else b.

(** *** Objects

    An object is a finite map from property names to values; reading a
    property that is missing gives [undefined]. *)
Abbreviation Obj := (gmap string Value).

Definition get (o : Obj) (k : string) : Value := default VUndefined (o !! k).

(** [{ ...a, ...b }]: the properties of [b] win. *)
Definition spread (a b : Obj) : Obj := b ∪ a.

(** *** Time values (ECMA-262, "Time Values and Time Range") *)

Definition msPerDay : Z := 86400000.
Definition maxTime : Z := 8640000000000000.

Definition TimeClip (t : Z) : option Z :=
  if Z.abs t <=? maxTime then Some t else None.

Definition Day (t : Z) : Z := t / msPerDay.
Definition TimeWithinDay (t : Z) : Z := t mod msPerDay.

Definition isLeapYear (y : Z) : bool :=
  (y mod 4 =? 0) && (negb (y mod 100 =? 0) || (y mod 400 =? 0)).

Definition DaysInYear (y : Z) : Z := if isLeapYear y then 366 else 365.

Definition DayFromYear (y : Z) : Z :=
  365 * (y - 1970) + (y - 1969) / 4 - (y - 1901) / 100 + (y - 1601) / 400.

Definition TimeFromYear (y : Z) : Z := msPerDay * DayFromYear y.

(** The largest [y] with [TimeFromYear y <= t]: a first guess from the mean
    length of a Gregorian year, which is off by one year at most. *)
Definition YearFromTime (t : Z) : Z :=
  let y := 1970 + (Day t * 400) / 146097 in
  if DayFromYear (y + 1) <=? Day t then y + 1
  else if DayFromYear y <=? Day t then y
  else y - 1.

Definition InLeapYear (t : Z) : Z :=
  if isLeapYear (YearFromTime t) then 1 else 0.

Definition DayWithinYear (t : Z) : Z := Day t - DayFromYear (YearFromTime t).

(** The day of the year on which month [m] (0 = January) starts. *)
Definition monthStart (leap m : Z) : Z :=
  match m with
  | 0 => 0
  | 1 => 31
  | 2 => 59 + leap
  | 3 => 90 + leap
  | 4 => 120 + leap
  | 5 => 151 + leap
  | 6 => 181 + leap
  | 7 => 212 + leap
  | 8 => 243 + leap
  | 9 => 273 + leap
  | 10 => 304 + leap
  | _ => 334 + leap
  end.

Definition MonthFromTime (t : Z) : Z :=
  let d := DayWithinYear t in
  let leap := InLeapYear t in
  if d <? 31 then 0
  else if d <? 59 + leap then 1
  else if d <? 90 + leap then 2
  else if d <? 120 + leap then 3
  else if d <? 151 + leap then 4
  else if d <? 181 + leap then 5
  else if d <? 212 + leap then 6
  else if d <? 243 + leap then 7
  else if d <? 273 + leap then 8
  else if d <? 304 + leap then 9
  else if d <? 334 + leap then 10
  else 11.

Definition DateFromTime (t : Z) : Z :=
  DayWithinYear t - monthStart (InLeapYear t) (MonthFromTime t) + 1.

Definition MakeTime (hour min sec ms : Z) : Z :=
  ((hour * 60 + min) * 60 + sec) * 1000 + ms.

(** [MakeDay]: the day number of the first day of month [month] of year
    [year] (months beyond 0..11 carry into the year), plus [date - 1]. *)
Definition MakeDay (year month date : Z) : Z :=
  let ym := year + month / 12 in
  let mn := month mod 12 in
  DayFromYear ym + monthStart (if isLeapYear ym then 1 else 0) mn + date - 1.

Definition MakeDate (day time : Z) : Z := day * msPerDay + time.

End JS.

Import JS.

(** ** The host

    What the program takes from outside its own sources: the third-party
    [sanitize-html] package, called with the options fixed in
    [sanitizeText]; the engine's [Date.parse] ([None] for [NaN]); the local
    time zone, as ECMA-262's [LocalTZA(t, isUTC)]: the offset of local time
    from UTC in milliseconds, at the instant [t] when [isUTC] holds and at
    the local time [t] otherwise, so that it may change with the seasons;
    the system clock, as the sequence of its successive readings; and the
    sequence of identifiers that [crypto.randomUUID] hands out. *)
Record Host : Type := mkHost {
  sanitizeHtml : Value → string;
  Date_parse : string → option Z;
  LocalTZA : Z → bool → Z;
  clock : nat → Z;
  randomUUID : nat → string
}.

(** ** The process state

    The singleton [taskStore] holds a [Map] from identifiers to tasks.  A
    stored task is a plain object: nothing at run time keeps it to the
    fields of the [Task] interface.  (A [Map] also remembers the order of
    insertion, which only [getAllTasks] shows and which is not kept here.)
    The two counters say how many clock readings and identifiers have been
    consumed. *)
Record World : Type := mkWorld {
  tasks : gmap string Obj;
  clockReads : nat;
  uuidsDrawn : nat
}.

Definition initialWorld : World :=
  {| tasks := ∅; clockReads := 0; uuidsDrawn := 0 |}.

(** ** Exceptions

    What a [throw] carries, as far as [errorHandler] reads it: a message,
    and the [statusCode] and [errors] that only some errors have. *)
Record ValidationErrorDetail : Type := mkError {
  field : string;
  message : string
}.

Global Instance ValidationErrorDetail_eq_dec : EqDecision ValidationErrorDetail.
Proof. solve_decision. Defined.

Record CustomError : Type := mkCustomError {
  err_message : string;
  err_statusCode : option Z;
  err_errors : option (list ValidationErrorDetail)
}.

(** [new TypeError(message)] *)
Definition TypeError (message : string) : CustomError :=
  {| err_message := message; err_statusCode := None; err_errors := None |}.

(** How an evaluation ends: with a value, or abruptly with what was
    thrown. *)
Inductive Completion (A : Type) : Type :=
| Return (a : A)
| Throw (err : CustomError).
Arguments Return {A} a.
Arguments Throw {A} err.

(** Computations that read and update the process state. *)
Definition M (A : Type) : Type := World → A * World.

Definition ret {A} (a : A) : M A := λ w, (a, w).
Definition bind {A B} (m : M A) (k : A → M B) : M B :=
  λ w, let (a, w') := m w in k a w'.

Declare Scope m_scope.
Delimit Scope m_scope with M.
Notation "x <- m ;; k" := (bind m (λ x, k))
  (at level 100, m at next level, right associativity) : m_scope.
Notation "m ;;; k" := (bind m (λ _, k))
  (at level 100, right associativity) : m_scope.

(** Computations that may also throw.  What was done to the process state
    before the [throw] stays done. *)
Definition E (A : Type) : Type := World → Completion A * World.

Definition retE {A} (a : A) : E A := λ w, (Return a, w).
Definition throw {A} (err : CustomError) : E A := λ w, (Throw err, w).
Definition bindE {A B} (m : E A) (k : A → E B) : E B :=
  λ w, match m w with
       | (Return a, w') => k a w'
       | (Throw err, w') => (Throw err, w')
       end.

(** A computation that does not throw, and a completion, where one that may
    throw is expected. *)
Definition lift {A} (m : M A) : E A := λ w, let (a, w') := m w in (Return a, w').
Definition completion {A} (c : Completion A) : E A := λ w, (c, w).

(** [try { body } catch (error) { handler }] *)
Definition try_catch {A} (body : E A) (handler : CustomError → M A) : M A :=
  λ w, match body w with
       | (Return a, w') => (a, w')
       | (Throw error, w') => handler error w'
       end.

Notation "x <~ m ;; k" := (bindE m (λ x, k))
  (at level 100, m at next level, right associativity) : m_scope.
Notation "m ;;~ k" := (bindE m (λ _, k))
  (at level 100, right associativity) : m_scope.
Local Open Scope m_scope.

Section Runtime.
Variable host : Host.

(** *** [Date] *)

Definition LocalTime (t : Z) : Z := t + LocalTZA host t true.
Definition UTC (t : Z) : Z := t - LocalTZA host t false.

(** [new Date()] *)
Definition Date_now : M (option Z) :=
  λ w, (Some (clock host (clockReads w)),
        {| tasks := tasks w; clockReads := S (clockReads w); uuidsDrawn := uuidsDrawn w |}).

(** The [TypeError] of [ToPrimitive], in V8's words. *)
Definition conversion_error : CustomError :=
  TypeError "Cannot convert object to primitive value".

(** [new Date(v)]: the time value of the new [Date], or the exception of
    the conversion of [v] to a primitive value. *)
Definition new_Date (v : Value) : Completion (option Z) :=
  match v with
  | VUndefined => Return None
  | VNull => Return (TimeClip 0)
  | VBool b => Return (TimeClip (if b then 1 else 0))
  | VNum n => Return (TimeClip n)
  | VStr s => Return (Date_parse host s ≫= TimeClip)
  | VObject (Some p) => Return (Date_parse host p ≫= TimeClip)
  | VObject None => Throw conversion_error
  | VDate tv => Return tv
  end.

(** [isNaN(d.getTime())] *)
Definition isNaN (tv : option Z) : bool :=
  match tv with None => true | Some _ => false end.

(** [d.setHours(h, m, s, ms)], the new time value of [d] *)
Definition setHours (tv : option Z) (h m s ms : Z) : option Z :=
  match tv with
  | None => None
  | Some t =>
      let t := LocalTime t in
      TimeClip (UTC (MakeDate (Day t) (MakeTime h m s ms)))
  end.

(** [d.getFullYear()] *)
Definition getFullYear (tv : option Z) : option Z :=
  match tv with
  | None => None
  | Some t => Some (YearFromTime (LocalTime t))
  end.

(** [d.setFullYear(y)], the new time value of [d] *)
Definition setFullYear (tv : option Z) (y : option Z) : option Z :=
  let t := match tv with None => 0 | Some t => LocalTime t end in
  match y with
  | None => None
  | Some y =>
      TimeClip (UTC (MakeDate (MakeDay y (MonthFromTime t) (DateFromTime t))
                              (TimeWithinDay t)))
  end.

(** [a < b] and [a > b] on [Date] objects: a comparison with [NaN] is false. *)
Definition Date_lt (a b : option Z) : bool :=
  match a, b with
  | Some x, Some y => x <? y
  | _, _ => false
  end.

Definition Date_gt (a b : option Z) : bool := Date_lt b a.

(** *** [crypto.randomUUID()] *)
Definition crypto_randomUUID : M string :=
  λ w, (randomUUID host (uuidsDrawn w),
        {| tasks := tasks w; clockReads := clockReads w; uuidsDrawn := S (uuidsDrawn w) |}).

End Runtime.

(** ** [models/task.model.ts] *)

Inductive TaskStatus : Type := PENDING | IN_PROGRESS | COMPLETED | BLOCKED.

Definition TaskStatus_value (s : TaskStatus) : string :=
  match s with
  | PENDING => "pending"
  | IN_PROGRESS => "in-progress"
  | COMPLETED => "completed"
  | BLOCKED => "blocked"
  end.

Inductive TaskPriority : Type := LOW | MEDIUM | HIGH | CRITICAL.

Definition TaskPriority_value (p : TaskPriority) : string :=
  match p with
  | LOW => "low"
  | MEDIUM => "medium"
  | HIGH => "high"
  | CRITICAL => "critical"
  end.

(** [Object.values(TaskStatus)] and [Object.values(TaskPriority)] *)
Definition TaskStatus_values : list string :=
  TaskStatus_value <$> [PENDING; IN_PROGRESS; COMPLETED; BLOCKED].

Definition TaskPriority_values : list string :=
  TaskPriority_value <$> [LOW; MEDIUM; HIGH; CRITICAL].

(** ** [models/task.store.ts] *)

Module TaskStore.
Section TaskStore.
Variable host : Host.

Definition tasks_set (id : string) (task : Obj) : M unit :=
  λ w, (tt, {| tasks := <[id := task]> (tasks w);
               clockReads := clockReads w; uuidsDrawn := uuidsDrawn w |}).

(** [Array.from(this.tasks.values())]: the stored tasks.  A [Map] lists
    them in the order of insertion, which the state does not record; they
    come here in the order of the map of the model, and no statement below
    depends on the order. *)
Definition getAllTasks : M (list Obj) :=
  λ w, ((map_to_list (tasks w)).*2, w).

Definition getTaskById (id : string) : M (option Obj) :=
  λ w, (tasks w !! id, w).

Definition createTask (taskData : Obj) : E Obj :=
  id <~ lift (crypto_randomUUID host) ;;
  dueDate <~ (if truthy (get taskData "dueDate")
              then date <~ completion (new_Date host (get taskData "dueDate")) ;;
                   retE (VDate date)
              else retE VUndefined) ;;
  createdAt <~ lift (Date_now host) ;;
  updatedAt <~ lift (Date_now host) ;;
  let newTask : Obj :=
    <["id" := VStr id]> (
    <["title" := get taskData "title"]> (
    <["description" := get taskData "description"]> (
    <["status" := JS.or (get taskData "status") (VStr (TaskStatus_value PENDING))]> (
    <["priority" := JS.or (get taskData "priority") (VStr (TaskPriority_value MEDIUM))]> (
    <["dueDate" := dueDate]> (
    <["createdAt" := VDate createdAt]> (
    <["updatedAt" := VDate updatedAt]> ∅))))))) in
  lift (tasks_set id newTask) ;;~
  retE newTask.

Definition updateTask (id : string) (taskData : Obj) : E (option Obj) :=
  existingTask <~ lift (getTaskById id) ;;
  match existingTask with
  | None => retE None
  | Some existingTask =>
      dueDate <~ (if isDefined (get taskData "dueDate")
                  then date <~ completion (new_Date host (get taskData "dueDate")) ;;
                       retE (VDate date)
                  else retE (get existingTask "dueDate")) ;;
      updatedAt <~ lift (Date_now host) ;;
      let updatedTask : Obj :=
        <["updatedAt" := VDate updatedAt]> (
        <["dueDate" := dueDate]> (spread existingTask taskData)) in
      lift (tasks_set id updatedTask) ;;~
      retE (Some updatedTask)
  end.

Definition deleteTask (id : string) : M bool :=
  λ w, (bool_decide (is_Some (tasks w !! id)),
        {| tasks := delete id (tasks w);
           clockReads := clockReads w; uuidsDrawn := uuidsDrawn w |}).

Definition clearAll : M unit :=
  λ w, (tt, {| tasks := ∅; clockReads := clockReads w; uuidsDrawn := uuidsDrawn w |}).

Definition getTaskCount : M Z :=
  λ w, (Z.of_nat (size (tasks w)), w).

End TaskStore.
End TaskStore.

(** ** [middleware/taskValidation.ts] *)

(** [new ValidationError(errors)] *)
Definition ValidationError (errors : list ValidationErrorDetail) : CustomError :=
  {| err_message := "Validation failed";
     err_statusCode := Some 400;
     err_errors := Some errors |}.

(** An Express request, as far as the handlers read it: [req.params.id]
    (Express hands path parameters over as strings) and [req.body]. *)
Record Request : Type := mkRequest {
  params_id : string;
  body : Obj
}.

Inductive ResponseBody : Type :=
| BTaskList (count : Z) (data : list Obj)
| BTask (msg : option string) (data : Obj)
| BMessage (success : bool) (msg : string)
| BValidation (msg : string) (errors : list ValidationErrorDetail)
| BError (msg : string) (statusCode : Z).

Record Response : Type := mkResponse {
  status : Z;
  json : ResponseBody
}.

(** How a handler ends: [next()], with the request as the handler left it,
    [next(error)], or a response sent. *)
Inductive Outcome : Type :=
| Next (req : Request)
| NextError (err : CustomError)
| Respond (res : Response).

Definition Handler : Type := Request → M Outcome.

(** [catch (error) { next(error); }], the clause that closes every handler *)
Definition next_error (error : CustomError) : M Outcome := ret (NextError error).

(** [errors.push(e)] under [if (e)] *)
Definition push_if (errors : list ValidationErrorDetail)
    (e : option ValidationErrorDetail) : list ValidationErrorDetail :=
  match e with
  | Some e => errors ++ [e]
  | None => errors
  end.

(** [values.join(sep)] *)
Fixpoint join (sep : string) (values : list string) : string :=
  match values with
  | [] => ""
  | [v] => v
  | v :: rest => v +:+ sep +:+ join sep rest
  end.

(** [values.includes(v)] for an array of strings *)
Definition includes (values : list string) (v : Value) : bool :=
  match v with
  | VStr s => bool_decide (s ∈ values)
  | _ => false
  end.

Module Validation.
Section Validation.
Variable host : Host.

Definition sanitizeText (text : Value) : string :=
  trim (sanitizeHtml host text).

Definition validateTitle (title : Value) : option ValidationErrorDetail :=
  match title with
  | VUndefined | VNull =>
      Some {| field := "title"; message := "Title is required" |}
  | VStr title =>
      let trimmedTitle := trim title in
      if JS.length trimmedTitle <? 3 then
        Some {| field := "title"; message := "Title must be at least 3 characters long" |}
      else if 100 <? JS.length trimmedTitle then
        Some {| field := "title"; message := "Title must not exceed 100 characters" |}
      else None
  | _ => Some {| field := "title"; message := "Title must be a string" |}
  end.

Definition validateDescription (description : Value) : option ValidationErrorDetail :=
  match description with
  | VUndefined | VNull => None
  | VStr description =>
      if 500 <? JS.length description then
        Some {| field := "description"; message := "Description must not exceed 500 characters" |}
      else None
  | _ => Some {| field := "description"; message := "Description must be a string" |}
  end.

Definition validateStatus (status : Value) : option ValidationErrorDetail :=
  if isNullish status then None
  else
    let validStatuses := TaskStatus_values in
    if negb (includes validStatuses status) then
      Some {| field := "status";
              message := "Status must be one of: " +:+ join ", " validStatuses |}
    else None.

Definition validatePriority (priority : Value) : option ValidationErrorDetail :=
  if isNullish priority then None
  else
    let validPriorities := TaskPriority_values in
    if negb (includes validPriorities priority) then
      Some {| field := "priority";
              message := "Priority must be one of: " +:+ join ", " validPriorities |}
    else None.

Definition dueDate_format_error : ValidationErrorDetail :=
  {| field := "dueDate";
     message := "Due date must be a valid date (ISO 8601 format: YYYY-MM-DD or YYYY-MM-DDTHH:mm:ss)" |}.

Definition dueDate_past_error : ValidationErrorDetail :=
  {| field := "dueDate"; message := "Due date must be today or in the future" |}.

Definition dueDate_future_error : ValidationErrorDetail :=
  {| field := "dueDate";
     message := "Due date must not be more than 10 years in the future" |}.

Definition validateDueDate (dueDate : Value) : E (option ValidationErrorDetail) :=
  if isNullish dueDate then retE None
  else
    date <~ completion (new_Date host dueDate) ;;
    if isNaN date then retE (Some dueDate_format_error)
    else
      now <~ lift (Date_now host) ;;
      let now := setHours host now 0 0 0 0 in
      dueDateOnly <~ completion (new_Date host (VDate date)) ;;
      let dueDateOnly := setHours host dueDateOnly 0 0 0 0 in
      if Date_lt dueDateOnly now then retE (Some dueDate_past_error)
      else
        tenYearsFromNow <~ lift (Date_now host) ;;
        let tenYearsFromNow :=
          setFullYear host tenYearsFromNow
            ((λ y, y + 10) <$> getFullYear host tenYearsFromNow) in
        if Date_gt date tenYearsFromNow then retE (Some dueDate_future_error)
        else retE None.

Definition set_body (req : Request) (k : string) (v : Value) : Request :=
  {| params_id := params_id req; body := <[k := v]> (body req) |}.

Definition validateCreateTask : Handler := λ req,
  try_catch (
    let title := get (body req) "title" in
    let description := get (body req) "description" in
    let status := get (body req) "status" in
    let priority := get (body req) "priority" in
    let dueDate := get (body req) "dueDate" in
    let errors : list ValidationErrorDetail := [] in
    let errors := push_if errors (validateTitle title) in
    let errors := push_if errors (validateDescription description) in
    let errors := push_if errors (validateStatus status) in
    let errors := push_if errors (validatePriority priority) in
    dueDateError <~ validateDueDate dueDate ;;
    let errors := push_if errors dueDateError in
    if 0 <? Z.of_nat (List.length errors) then
      throw (ValidationError errors)
    else
      let req := if truthy title
                 then set_body req "title" (VStr (sanitizeText title)) else req in
      let req := if truthy description
                 then set_body req "description" (VStr (sanitizeText description)) else req in
      req <~ (if truthy dueDate
              then date <~ completion (new_Date host dueDate) ;;
                   retE (set_body req "dueDate" (VDate date))
              else retE req) ;;
      retE (Next req))
  next_error.

Definition body_error : ValidationErrorDetail :=
  {| field := "body";
     message := "At least one field (title, description, status, priority, or dueDate) must be provided for update" |}.

Definition validateUpdateTask : Handler := λ req,
  try_catch (
    let title := get (body req) "title" in
    let description := get (body req) "description" in
    let status := get (body req) "status" in
    let priority := get (body req) "priority" in
    let dueDate := get (body req) "dueDate" in
    let errors : list ValidationErrorDetail := [] in
    if negb (isDefined title) && negb (isDefined description) &&
       negb (isDefined status) && negb (isDefined priority) &&
       negb (isDefined dueDate)
    then
      let errors := errors ++ [body_error] in
      throw (ValidationError errors)
    else
      let errors := if isDefined title
                    then push_if errors (validateTitle title) else errors in
      let errors := if isDefined description
                    then push_if errors (validateDescription description) else errors in
      let errors := if isDefined status
                    then push_if errors (validateStatus status) else errors in
      let errors := if isDefined priority
                    then push_if errors (validatePriority priority) else errors in
      errors <~ (if isDefined dueDate
                 then dueDateError <~ validateDueDate dueDate ;;
                      retE (push_if errors dueDateError)
                 else retE errors) ;;
      if 0 <? Z.of_nat (List.length errors) then
        throw (ValidationError errors)
      else
        let req := if isDefined title
                   then set_body req "title" (VStr (sanitizeText title)) else req in
        let req := if isDefined description
                   then set_body req "description" (VStr (sanitizeText description)) else req in
        req <~ (if isDefined dueDate
                then date <~ completion (new_Date host dueDate) ;;
                     retE (set_body req "dueDate" (VDate date))
                else retE req) ;;
        retE (Next req))
  next_error.

(** The character classes of
    [/^[0-9a-f]{8}-[0-9a-f]{4}-4[0-9a-f]{3}-[89ab][0-9a-f]{3}-[0-9a-f]{12}$/i] *)
Definition hex (c : ascii) : bool :=
  let n := N_of_ascii c in
  ((48 <=? n) && (n <=? 57) || (97 <=? n) && (n <=? 102) || (65 <=? n) && (n <=? 70))%N.

Definition variant (c : ascii) : bool :=
  match c with
  | "8" | "9" | "a" | "b" | "A" | "B" => true
  | _ => false
  end%char.

Definition lit (c : ascii) : ascii → bool := Ascii.eqb c.

Definition uuidRegex : list (ascii → bool) :=
  replicate 8 hex ++ [lit "-"%char] ++
  replicate 4 hex ++ [lit "-"%char] ++
  [lit "4"%char] ++ replicate 3 hex ++ [lit "-"%char] ++
  [variant] ++ replicate 3 hex ++ [lit "-"%char] ++
  replicate 12 hex.

(** [regex.test(s)] for a regex that is a sequence of character classes
    between [^] and [$] *)
Fixpoint regex_test (regex : list (ascii → bool)) (s : string) : bool :=
  match regex, s with
  | [], EmptyString => true
  | cls :: regex, String c s => cls c && regex_test regex s
  | _, _ => false
  end.

Definition validateTaskId : Handler := λ req,
  try_catch (
    let id := params_id req in
    let errors : list ValidationErrorDetail := [] in
    if negb (truthy (VStr id)) then
      let errors := errors ++ [{| field := "id"; message := "Task ID is required" |}] in
      throw (ValidationError errors)
    else if negb (regex_test uuidRegex id) then
      let errors := errors ++
        [{| field := "id"; message := "Invalid task ID format (must be a valid UUID v4)" |}] in
      throw (ValidationError errors)
    else retE (Next req))
  next_error.

End Validation.
End Validation.

(** ** [middleware/errorHandler.ts] (the logger call left out) *)

Definition errorHandler (err : CustomError) : Response :=
  let statusCode :=
    match err_statusCode err with
    | Some c => if c =? 0 then 500 else c
    | None => 500
    end in
  let message :=
    if String.eqb (err_message err) "" then "Internal Server Error" else err_message err in
  match err_errors err with
  | Some (e :: errors) =>
      {| status := statusCode; json := BValidation "Validation failed" (e :: errors) |}
  | _ => {| status := statusCode; json := BError message statusCode |}
  end.

(** ** [controllers/task.controller.ts] *)

Module Controller.
Section Controller.
Variable host : Host.

Definition not_found (id : string) : Response :=
  {| status := 404;
     json := BMessage false ("Task with ID '" +:+ id +:+ "' not found") |}.

Definition getAllTasks : Handler := λ req,
  try_catch (
    tasks <~ lift TaskStore.getAllTasks ;;
    retE (Respond {| status := 200;
                     json := BTaskList (Z.of_nat (List.length tasks)) tasks |}))
  next_error.

Definition getTaskById : Handler := λ req,
  try_catch (
    let id := params_id req in
    task <~ lift (TaskStore.getTaskById id) ;;
    match task with
    | None => retE (Respond (not_found id))
    | Some task => retE (Respond {| status := 200; json := BTask None task |})
    end)
  next_error.

Definition createTask : Handler := λ req,
  try_catch (
    let taskData := body req in
    newTask <~ TaskStore.createTask host taskData ;;
    retE (Respond {| status := 201;
                     json := BTask (Some "Task created successfully") newTask |}))
  next_error.

Definition updateTask : Handler := λ req,
  try_catch (
    let id := params_id req in
    let taskData := body req in
    updatedTask <~ TaskStore.updateTask host id taskData ;;
    match updatedTask with
    | None => retE (Respond (not_found id))
    | Some updatedTask =>
        retE (Respond {| status := 200;
                         json := BTask (Some "Task updated successfully") updatedTask |})
    end)
  next_error.

Definition deleteTask : Handler := λ req,
  try_catch (
    let id := params_id req in
    deleted <~ lift (TaskStore.deleteTask id) ;;
    if negb deleted then retE (Respond (not_found id))
    else retE (Respond {| status := 200;
                          json := BMessage true "Task deleted successfully" |}))
  next_error.

End Controller.
End Controller.

(** ** [routes/task.routes.ts] and the Express chain

    A route runs its handlers in order; [next(error)] skips the rest and
    goes to [errorHandler], which [app.ts] installs last.  A chain that
    runs out without a response falls through to Express's own 404. *)

Fixpoint run (chain : list Handler) (req : Request) : M Response :=
  match chain with
  | [] => ret {| status := 404; json := BError "Not Found" 404 |}
  | h :: chain =>
      o <- h req ;;
      match o with
      | Next req => run chain req
      | NextError err => ret (errorHandler err)
      | Respond res => ret res
      end
  end.

Module Router.
Section Router.
Variable host : Host.

(** [router.get('/', ...)] *)
Definition get_all : list Handler := [Controller.getAllTasks].
(** [router.get('/:id', ...)] *)
Definition get_one : list Handler :=
  [Validation.validateTaskId; Controller.getTaskById].
(** [router.post('/', ...)] *)
Definition post : list Handler :=
  [Validation.validateCreateTask host; Controller.createTask host].
(** [router.put('/:id', ...)] *)
Definition put : list Handler :=
  [Validation.validateTaskId; Validation.validateUpdateTask host;
   Controller.updateTask host].
(** [router.delete('/:id', ...)] *)
Definition delete : list Handler :=
  [Validation.validateTaskId; Controller.deleteTask].

End Router.
End Router.

(** ** A concrete host, for running the program on examples *)

Module Demo.

(** Modelled from the spec: the sanitizer "strips/escapes unsafe markup
    from free-text fields", by "HTML/script-stripping with disallowed-tag
    escaping".  [sanitize-html] is a dependency and not among the sources;
    [sanitizeText] calls it as [sanitizeHtml(text, { allowedTags: [],
    allowedAttributes: {}, disallowedTagsMode: 'recursiveEscape' })]: no
    tag is allowed, and a disallowed tag is escaped, not dropped.  The
    model writes each markup character as its entity, which is what comes
    out for text made of plain characters and attribute-free tags. *)
Fixpoint escapeHtml (s : string) : string :=
  match s with
  | EmptyString => EmptyString
  | String c s' =>
      (if Ascii.eqb c "&" then "&amp;"
       else if Ascii.eqb c "<" then "&lt;"
       else if Ascii.eqb c ">" then "&gt;"
       else String c EmptyString) +:+ escapeHtml s'
  end.

(** Modelled from the spec: the sanitizer on a value, which escapes a
    string and gives the empty string for [null] and [undefined]. *)
Definition sanitizeHtml (text : Value) : string :=
  match text with
  | VStr s => escapeHtml s
  | _ => ""
  end.

(** [Date.parse] on the date-only form [YYYY-MM-DD], which ECMA-262 reads
    as midnight UTC; every other string is left unparsed. *)
Definition digit (c : ascii) : option Z :=
  let n := Z.of_N (N_of_ascii c) in
  if (48 <=? n) && (n <=? 57) then Some (n - 48) else None.

Fixpoint digits (n : nat) (acc : Z) (s : string) : option (Z * string) :=
  match n with
  | O => Some (acc, s)
  | S n =>
      match s with
      | String c s' => d ← digit c; digits n (10 * acc + d) s'
      | EmptyString => None
      end
  end.

Definition dash (s : string) : option string :=
  match s with
  | String "-" s' => Some s'
  | _ => None
  end.

Definition Date_parse (s : string) : option Z :=
  '(y, s) ← digits 4 0 s;
  s ← dash s;
  '(m, s) ← digits 2 0 s;
  s ← dash s;
  '(d, s) ← digits 2 0 s;
  if String.eqb s "" && (1 <=? m) && (m <=? 12) && (1 <=? d) &&
     (d <=? MakeDay y m 1 - MakeDay y (m - 1) 1)
  then Some (MakeDate (MakeDay y (m - 1) d) 0)
  else None.

Definition uuid : string := "f9312e7d-1d33-43e2-9145-3bafac1199dd".

(** 2026-11-02T12:00:00.000Z *)
Definition noon : Z := 1793620800000.

(** A host in UTC whose clock is given. *)
Definition host (clock : nat → Z) : Host :=
  mkHost sanitizeHtml Date_parse (λ _ _, 0) clock (λ _, uuid).

(** The clock advances by one millisecond per reading. *)
Definition ticking : Host := host (λ n, noon + Z.of_nat n).

(** All readings fall into the same millisecond. *)
Definition frozen : Host := host (λ _, noon).

(** The frozen clock, one hour east of UTC. *)
Definition east : Host :=
  mkHost sanitizeHtml Date_parse (λ _ _, 3600000) (λ _, noon) (λ _, uuid).

(** New York around 1 November 2026, the day its clocks go back: local time
    is four hours behind UTC until 06:00 UTC of that day, which is 02:00
    local time, and five hours behind from then on.  A local time between
    01:00 and 02:00 of that day occurs twice and is read as the earlier of
    the two instants. *)
Definition newYorkTZA (t : Z) (isUTC : bool) : Z :=
  if isUTC
  then (if t <? 1793512800000 then -14400000 else -18000000)
  else (if t <? 1793498400000 then -14400000 else -18000000).

(** The clock stands at 17:00 UTC of that day, noon in New York. *)
Definition newYork : Host :=
  mkHost sanitizeHtml Date_parse newYorkTZA (λ _, 1793552400000) (λ _, uuid).

End Demo.

(** ** Vocabulary of the statements *)

(** An object literal. *)
Definition obj (l : list (string * Value)) : Obj := list_to_map l.

(** The fields of a task that a payload may set. *)
Definition taskFields : list string :=
  ["title"; "description"; "status"; "priority"; "dueDate"].

(** The errors among the results of a sequence of validators, in order. *)
Definition collect (results : list (option ValidationErrorDetail))
    : list ValidationErrorDetail :=
  omap id results.

(** The last character of a string. *)
Fixpoint last_char (s : string) : option ascii :=
  match s with
  | EmptyString => None
  | String c EmptyString => Some c
  | String _ s => last_char s
  end.

(** [new Date(v)] throws: the conversion of [v] to a primitive value does. *)
Definition conversion_throws (v : Value) : bool :=
  match v with
  | VObject None => true
  | _ => false
  end.

(** The state after one more reading of the clock. *)
Definition tick (w : World) : World :=
  {| tasks := tasks w; clockReads := S (clockReads w); uuidsDrawn := uuidsDrawn w |}.

Section Vocabulary.
Variable host : Host.

(** The instant at which the local calendar day of [t] starts. *)
Definition startOfDay (t : Z) : Z :=
  UTC host (MakeDate (Day (LocalTime host t)) 0).

(** The instant with the local month, date and time of day of [t], ten
    years on. *)
Definition tenYearsAfter (t : Z) : Z :=
  let lt := LocalTime host t in
  UTC host (MakeDate (MakeDay (YearFromTime lt + 10) (MonthFromTime lt) (DateFromTime lt))
                     (TimeWithinDay lt)).

(** A clock reading from 1970 on whose next ten years are time values,
    whatever the offset of local time. *)
Definition in_range (t : Z) : Prop :=
  0 <= t ∧ t + 3656 * msPerDay <= maxTime.

(** The days start in order: the day of an instant starts at or before it,
    a later instant lies on no earlier day, and the start of a day lies on
    that day. *)
Definition days_in_order : Prop :=
  (∀ t, startOfDay t <= t) ∧
  (∀ s t, s <= t → startOfDay s <= startOfDay t) ∧
  (∀ t, startOfDay (startOfDay t) = startOfDay t).

(** Local time is never more than a day away from UTC. *)
Definition offsets_within_a_day : Prop :=
  ∀ t isUTC, Z.abs (LocalTZA host t isUTC) <= msPerDay.

(** Local time is at the same offset from UTC throughout: a zone without
    daylight saving. *)
Definition fixed_offset : Prop :=
  ∃ offset, ∀ t isUTC, LocalTZA host t isUTC = offset.

End Vocabulary.

(** * Properties *)

(** ** Calendar arithmetic *)

Section Calendar.

Lemma YearFromTime_spec t :
  DayFromYear (YearFromTime t) <= Day t < DayFromYear (YearFromTime t + 1).
Proof.
  unfold YearFromTime, DayFromYear. generalize (Day t). intros d.
  repeat case_match; rewrite ?Z.leb_le, ?Z.leb_gt in *;
    Z.div_mod_to_equations; lia.
Qed.

Lemma DayFromYear_succ y : DayFromYear (y + 1) = DayFromYear y + DaysInYear y.
Proof.
  unfold DayFromYear, DaysInYear, isLeapYear.
  destruct (y mod 4 =? 0) eqn:H4; destruct (y mod 100 =? 0) eqn:H100;
    destruct (y mod 400 =? 0) eqn:H400; simpl;
    rewrite ?Z.eqb_eq, ?Z.eqb_neq in *; Z.div_mod_to_equations; lia.
Qed.

Lemma DaysInYear_range y : 365 <= DaysInYear y <= 366.
Proof. unfold DaysInYear. case_match; lia. Qed.

(** Ten calendar years are 3651 to 3653 days (3651 when they hold a
    century year that is not a leap year and just one leap year). *)
Lemma DayFromYear_decade y :
  3651 <= DayFromYear (y + 10) - DayFromYear y <= 3653.
Proof. unfold DayFromYear. Z.div_mod_to_equations. lia. Qed.

Lemma DayWithinYear_range t :
  0 <= DayWithinYear t < DaysInYear (YearFromTime t).
Proof.
  unfold DayWithinYear. pose proof (YearFromTime_spec t) as H.
  rewrite DayFromYear_succ in H. lia.
Qed.

Lemma MonthFromTime_range t : 0 <= MonthFromTime t <= 11.
Proof. unfold MonthFromTime. repeat case_match; lia. Qed.

Lemma InLeapYear_range t : 0 <= InLeapYear t <= 1.
Proof. unfold InLeapYear. case_match; lia. Qed.

Lemma monthStart_leap leap m :
  0 <= leap <= 1 → 0 <= m <= 11 →
  monthStart 0 m <= monthStart leap m <= monthStart 0 m + 1.
Proof.
  intros Hl Hm.
  assert (m = 0 ∨ m = 1 ∨ m = 2 ∨ m = 3 ∨ m = 4 ∨ m = 5 ∨ m = 6 ∨
          m = 7 ∨ m = 8 ∨ m = 9 ∨ m = 10 ∨ m = 11) as Hcases by lia.
  destruct_or!; subst m; simpl; lia.
Qed.

Lemma MakeDay_in_year y m d :
  0 <= m <= 11 →
  MakeDay y m d =
    DayFromYear y + monthStart (if isLeapYear y then 1 else 0) m + d - 1.
Proof.
  intros Hm. unfold MakeDay.
  rewrite (Z.div_small m 12), (Z.mod_small m 12) by lia.
  by rewrite Z.add_0_r.
Qed.

(** The year, month and date of a time value give its day back. *)
Lemma MakeDay_of_time t :
  MakeDay (YearFromTime t) (MonthFromTime t) (DateFromTime t) = Day t.
Proof.
  rewrite MakeDay_in_year by apply MonthFromTime_range.
  unfold DateFromTime, DayWithinYear, InLeapYear. lia.
Qed.

(** The same month and date ten years on lie 3650 to 3654 days ahead. *)
Lemma MakeDay_decade t :
  3650 <= MakeDay (YearFromTime t + 10) (MonthFromTime t) (DateFromTime t) - Day t
       <= 3654.
Proof.
  pose proof (MonthFromTime_range t) as Hm.
  pose proof (MakeDay_of_time t) as Hday.
  rewrite MakeDay_in_year in Hday by done.
  rewrite MakeDay_in_year by done.
  pose proof (DayFromYear_decade (YearFromTime t)) as Hd.
  pose proof (monthStart_leap (if isLeapYear (YearFromTime t + 10) then 1 else 0)
                (MonthFromTime t)) as H1.
  pose proof (monthStart_leap (if isLeapYear (YearFromTime t) then 1 else 0)
                (MonthFromTime t)) as H2.
  assert (∀ b : bool, 0 <= (if b then 1 else 0) <= 1) as Hb by (intros []; lia).
  specialize (H1 (Hb _) Hm). specialize (H2 (Hb _) Hm). lia.
Qed.

Lemma Day_decompose t : t = Day t * msPerDay + TimeWithinDay t.
Proof.
  unfold Day, TimeWithinDay, msPerDay.
  pose proof (Z.div_mod t 86400000). lia.
Qed.

Lemma TimeWithinDay_range t : 0 <= TimeWithinDay t < msPerDay.
Proof. unfold TimeWithinDay, msPerDay. apply Z.mod_pos_bound. lia. Qed.

Lemma Day_mono s t : s <= t → Day s <= Day t.
Proof. intros H. unfold Day, msPerDay. apply Z.div_le_mono; lia. Qed.

End Calendar.

(** ** Running a computation *)

Lemma bindE_run {A B} (m : E A) (k : A → E B) w :
  bindE m k w = match m w with
                | (Return a, w') => k a w'
                | (Throw error, w') => (Throw error, w')
                end.
Proof. reflexivity. Qed.

Lemma try_catch_run {A} (body : E A) handler w :
  try_catch body handler w = match body w with
                             | (Return a, w') => (a, w')
                             | (Throw error, w') => handler error w'
                             end.
Proof. reflexivity. Qed.

(** ** The due-date validator *)

Section DueDate.
Variable host : Host.

(** Where local time stays within a day of UTC, the local midnight of an
    instant is less than three days before it and at most two after. *)
Lemma startOfDay_near t :
  offsets_within_a_day host →
  t - 3 * msPerDay < startOfDay host t <= t + 2 * msPerDay.
Proof.
  intros Hoff. unfold startOfDay, UTC, LocalTime, MakeDate.
  pose proof (Hoff t true) as Ha.
  pose proof (Hoff (Day (t + LocalTZA host t true) * msPerDay + 0) false) as Hb.
  pose proof (Day_decompose (t + LocalTZA host t true)) as Hd.
  pose proof (TimeWithinDay_range (t + LocalTZA host t true)) as Hr.
  unfold msPerDay in *. lia.
Qed.

Lemma tenYearsAfter_near t :
  offsets_within_a_day host →
  t + 3648 * msPerDay <= tenYearsAfter host t <= t + 3656 * msPerDay.
Proof.
  intros Hoff. unfold tenYearsAfter, UTC, LocalTime, MakeDate. cbv zeta.
  set (lt := t + LocalTZA host t true).
  pose proof (Hoff t true) as Ha.
  pose proof (Hoff (MakeDay (YearFromTime lt + 10) (MonthFromTime lt) (DateFromTime lt)
                      * msPerDay + TimeWithinDay lt) false) as Hb.
  pose proof (MakeDay_decade lt) as Hm.
  pose proof (Day_decompose lt) as Hd.
  unfold msPerDay in *. lia.
Qed.

(** At a fixed offset the days start in order. *)
Lemma fixed_offset_bounds t :
  fixed_offset host → startOfDay host t <= t < startOfDay host t + msPerDay.
Proof.
  intros [tz Htz]. unfold startOfDay, UTC, LocalTime, MakeDate. rewrite !Htz.
  pose proof (Day_decompose (t + tz)) as Hd.
  pose proof (TimeWithinDay_range (t + tz)) as Hr. lia.
Qed.

Lemma fixed_offset_mono s t :
  fixed_offset host → s <= t → startOfDay host s <= startOfDay host t.
Proof.
  intros [tz Htz] H. unfold startOfDay, UTC, LocalTime, MakeDate. rewrite !Htz.
  pose proof (Day_mono (s + tz) (t + tz)) as Hm.
  unfold msPerDay in *. lia.
Qed.

Lemma fixed_offset_idem t :
  fixed_offset host → startOfDay host (startOfDay host t) = startOfDay host t.
Proof.
  intros [tz Htz]. unfold startOfDay, UTC, LocalTime, MakeDate. rewrite !Htz.
  replace (Day (t + tz) * msPerDay + 0 - tz + tz)
    with (Day (t + tz) * msPerDay) by lia.
  unfold Day at 1. by rewrite Z.div_mul.
Qed.

Lemma fixed_offset_days_in_order : fixed_offset host → days_in_order host.
Proof.
  intros H. split; [|split].
  - intros t. apply (fixed_offset_bounds t H).
  - intros s t. by apply fixed_offset_mono.
  - intros t. by apply fixed_offset_idem.
Qed.

(** Where the days start in order, comparing the starts of two days is
    comparing an instant with the start of a day. *)
Lemma before_startOfDay d t :
  days_in_order host →
  startOfDay host d < startOfDay host t ↔ d < startOfDay host t.
Proof.
  intros (Hle & Hmono & Hidem). split; intros H.
  - destruct (Z.lt_ge_cases d (startOfDay host t)) as [|Hge]; [done|].
    apply Hmono in Hge. rewrite Hidem in Hge. lia.
  - pose proof (Hle d). lia.
Qed.

Lemma setHours_midnight t :
  setHours host (Some t) 0 0 0 0 = TimeClip (startOfDay host t).
Proof. reflexivity. Qed.

Lemma setFullYear_decade t :
  setFullYear host (Some t) ((λ y, y + 10) <$> getFullYear host (Some t))
  = TimeClip (tenYearsAfter host t).
Proof. unfold setFullYear, getFullYear, tenYearsAfter. simpl fmap. done. Qed.

Lemma TimeClip_Some t : Z.abs t <= maxTime → TimeClip t = Some t.
Proof. intros H. unfold TimeClip. by rewrite (proj2 (Z.leb_le _ _) H). Qed.

Lemma in_range_startOfDay t :
  offsets_within_a_day host →
  in_range t → TimeClip (startOfDay host t) = Some (startOfDay host t).
Proof.
  intros Hoff [H0 H1]. apply TimeClip_Some.
  pose proof (startOfDay_near t Hoff). unfold msPerDay, maxTime in *. lia.
Qed.

Lemma in_range_tenYearsAfter t :
  offsets_within_a_day host →
  in_range t → TimeClip (tenYearsAfter host t) = Some (tenYearsAfter host t).
Proof.
  intros Hoff [H0 H1]. apply TimeClip_Some.
  pose proof (tenYearsAfter_near t Hoff). unfold msPerDay, maxTime in *. lia.
Qed.

Lemma conversion_returns v :
  conversion_throws v = false → ∃ date, new_Date host v = Return date.
Proof. destruct v as [| | | | |[]|]; simpl; intros; try done; eauto. Qed.

(** What the validator computes on a value that is a valid date: the two
    comparisons of the source, on two successive readings of the clock. *)
Lemma validateDueDate_valid v d w :
  isNullish v = false →
  new_Date host v = Return (Some d) →
  Validation.validateDueDate host v w =
    if Date_lt (TimeClip (startOfDay host d))
               (TimeClip (startOfDay host (clock host (clockReads w))))
    then (Return (Some Validation.dueDate_past_error), tick w)
    else if Date_gt (Some d)
              (TimeClip (tenYearsAfter host (clock host (S (clockReads w)))))
    then (Return (Some Validation.dueDate_future_error), tick (tick w))
    else (Return None, tick (tick w)).
Proof.
  intros Hnn Hd. unfold Validation.validateDueDate.
  rewrite Hnn, Hd. cbn [isNaN new_Date].
  unfold bindE, retE, lift, completion, Date_now. cbn [isNaN]. cbv beta iota.
  rewrite !setHours_midnight.
  destruct (Date_lt _ _); [done|].
  cbn [clockReads]. rewrite setFullYear_decade.
  by destruct (Date_gt _ _).
Qed.

Lemma validateDueDate_nullish v w :
  isNullish v = true → Validation.validateDueDate host v w = (Return None, w).
Proof. intros H. unfold Validation.validateDueDate. by rewrite H. Qed.

Lemma validateDueDate_invalid v w :
  isNullish v = false → new_Date host v = Return None →
  Validation.validateDueDate host v w
  = (Return (Some Validation.dueDate_format_error), w).
Proof.
  intros H1 H2. unfold Validation.validateDueDate, bindE, completion.
  by rewrite H1, H2.
Qed.

(** The validator does not return on a value that cannot be converted: the
    exception of [new Date] leaves it. *)
Lemma validateDueDate_throws v w :
  conversion_throws v = true →
  Validation.validateDueDate host v w = (Throw conversion_error, w).
Proof. by destruct v as [| | | | |[]|]. Qed.

End DueDate.

(** C5 (as amended).  On a value that is a valid date [d], with the clock
    read at [now1] and then at [now2] (both from 1970 on and more than ten
    years short of the end of the time range, the local midnight of [d] a
    time value, and local time within a day of UTC, whether or not its
    offset changes with the seasons): the validator answers with the
    past-date error exactly when the local calendar day of [d] starts
    before the current local day does, a comparison of calendar days;
    where the days start in order (as they do at any fixed offset) that is
    exactly when [d] lies before the start of the current local day; it
    answers with the too-far-future error exactly when [d] lies after
    [now2] moved ten years on, a comparison of instants to the millisecond
    and not of calendar days; and it accepts every [d] of the current
    day, whatever the time of day. *)
Theorem dueDate_verdict host w v d :
  isNullish v = false →
  new_Date host v = Return (Some d) →
  offsets_within_a_day host →
  Z.abs (startOfDay host d) <= maxTime →
  in_range (clock host (clockReads w)) →
  in_range (clock host (S (clockReads w))) →
  clock host (clockReads w) <= clock host (S (clockReads w)) →
  let now1 := clock host (clockReads w) in
  let now2 := clock host (S (clockReads w)) in
  let verdict := (Validation.validateDueDate host v w).1 in
  (verdict = Return (Some Validation.dueDate_past_error) ↔
     startOfDay host d < startOfDay host now1) ∧
  (days_in_order host →
     (verdict = Return (Some Validation.dueDate_past_error) ↔
        d < startOfDay host now1)) ∧
  (verdict = Return (Some Validation.dueDate_future_error) ↔
     tenYearsAfter host now2 < d) ∧
  (verdict = Return None ↔
     startOfDay host now1 <= startOfDay host d ∧ d <= tenYearsAfter host now2) ∧
  (startOfDay host d = startOfDay host now1 → verdict = Return None).
Proof.
  intros Hnn Hd Hoff Hrep Hr1 Hr2 Hmono now1 now2 verdict.
  subst verdict. rewrite (validateDueDate_valid host v d w Hnn Hd).
  fold now1 now2.
  rewrite (TimeClip_Some _ Hrep), (in_range_startOfDay host now1 Hoff Hr1),
    (in_range_tenYearsAfter host now2 Hoff Hr2).
  unfold Date_gt, Date_lt.
  pose proof (before_startOfDay host d now1) as Hday.
  pose proof (startOfDay_near host now1 Hoff) as Hb1.
  pose proof (startOfDay_near host d Hoff) as Hbd.
  pose proof (tenYearsAfter_near host now2 Hoff) as Hten.
  assert (msPerDay = 86400000) as Hms by done.
  destruct (Z.ltb_spec (startOfDay host d) (startOfDay host now1)) as [Hp|Hp];
    [|destruct (Z.ltb_spec (tenYearsAfter host now2) d) as [Hf|Hf]];
    cbn [fst];
    (split; [|split; [intros Hord; specialize (Hday Hord)|split; [|split]]]);
    try (split; intros); try intros; try done; try congruence; try lia.
Qed.

(** A due date half an hour into the current day is accepted at noon, in
    New York on the day the clocks go back. *)
Lemma dueDate_verdict_witness :
  (Validation.validateDueDate Demo.newYork (VNum 1793507400000) initialWorld).1
  = Return None.
Proof.
  pose proof (dueDate_verdict Demo.newYork initialWorld (VNum 1793507400000)
                1793507400000) as H.
  apply H.
  - reflexivity.
  - reflexivity.
  - intros t isUTC. cbn [LocalTZA Demo.newYork]. unfold Demo.newYorkTZA, msPerDay.
    destruct isUTC; case_match; lia.
  - vm_compute. discriminate.
  - split; vm_compute; discriminate.
  - split; vm_compute; discriminate.
  - vm_compute. discriminate.
  - vm_compute. reflexivity.
Defined.

(** C5, counterexample.  The clock stands at noon of 2 November 2026, UTC.
    Due dates at 11:00 and at 13:00 of 2 November 2036 fall on the same
    calendar day, yet the first is accepted and the second is answered
    with the too-far-future error: the ten-year comparison looks at the
    time of day. *)
Lemma dueDate_ten_years_by_instant :
  let at11 := 2109236400000 in
  let at13 := 2109243600000 in
  startOfDay Demo.frozen at11 = startOfDay Demo.frozen at13 ∧
  tenYearsAfter Demo.frozen Demo.noon = 2109240000000 ∧
  (Validation.validateDueDate Demo.frozen (VNum at11) initialWorld).1 = Return None ∧
  (Validation.validateDueDate Demo.frozen (VNum at13) initialWorld).1
    = Return (Some Validation.dueDate_future_error).
Proof. vm_compute. done. Qed.

(** Why the verdict asks for the local midnight of the due date to be a time
    value.  One hour east of UTC the first instant of the time range has no
    such midnight: [setHours] makes it an Invalid Date, the comparison with
    it is false, and a due date in the year -271821 is accepted. *)
Lemma dueDate_at_start_of_range :
  setHours Demo.east (Some (- maxTime)) 0 0 0 0 = None ∧
  (Validation.validateDueDate Demo.east (VNum (- maxTime)) initialWorld).1
  = Return None.
Proof. vm_compute. done. Qed.

(** A zone with daylight saving.  In New York, on the day the clocks go
    back, the day starts at 04:00 UTC, an hour earlier than it would at
    the offset in force at noon; a due date at 04:30 UTC, half past
    midnight of that day, is of the current day and accepted. *)
Lemma dueDate_when_clocks_go_back :
  let due := 1793507400000 in
  startOfDay Demo.newYork (clock Demo.newYork 0) = 1793505600000 ∧
  startOfDay Demo.newYork due = 1793505600000 ∧
  (Validation.validateDueDate Demo.newYork (VNum due) initialWorld).1
  = Return None.
Proof. vm_compute. done. Qed.

(** In that zone the days start in order. *)
Lemma newYork_days_in_order : days_in_order Demo.newYork.
Proof.
  unfold days_in_order, startOfDay, UTC, LocalTime, MakeDate, Day.
  cbn [LocalTZA Demo.newYork]. unfold Demo.newYorkTZA, msPerDay.
  split; [|split].
  - intros t. repeat case_match; rewrite ?Z.ltb_lt, ?Z.ltb_ge in *;
      Z.div_mod_to_equations; lia.
  - intros s t Hst. repeat case_match; rewrite ?Z.ltb_lt, ?Z.ltb_ge in *;
      Z.div_mod_to_equations; lia.
  - intros t. repeat case_match; rewrite ?Z.ltb_lt, ?Z.ltb_ge in *;
      Z.div_mod_to_equations; lia.
Qed.

(** ** The aggregators *)

Section Aggregators.
Variable host : Host.

Lemma push_if_collect errors e : push_if errors e = errors ++ collect [e].
Proof. destruct e; simpl; [done|]. by rewrite app_nil_r. Qed.

Lemma push_if_when (p : bool) errors e :
  (if p then push_if errors e else errors)
  = errors ++ collect [if p then e else None].
Proof. destruct p; [apply push_if_collect|]. simpl. by rewrite app_nil_r. Qed.

Lemma collect_five (a b c d e : option ValidationErrorDetail) :
  (((([] ++ collect [a]) ++ collect [b]) ++ collect [c]) ++ collect [d]) ++ collect [e]
  = collect [a; b; c; d; e].
Proof. by destruct a, b, c, d, e. Qed.

Lemma nonempty_test {A} (l : list A) :
  (0 <? Z.of_nat (List.length l)) = match l with [] => false | _ => true end.
Proof. by destruct l. Qed.

Lemma errorHandler_validation e errors :
  errorHandler (ValidationError (e :: errors))
  = {| status := 400; json := BValidation "Validation failed" (e :: errors) |}.
Proof. reflexivity. Qed.

Lemma errorHandler_conversion_error :
  errorHandler conversion_error
  = {| status := 500;
       json := BError "Cannot convert object to primitive value" 500 |}.
Proof. reflexivity. Qed.

(** The due-date validator returns on every value that can be converted. *)
Lemma validateDueDate_returns v w :
  conversion_throws v = false →
  ∃ e, (Validation.validateDueDate host v w).1 = Return e.
Proof.
  intros Hconv. destruct (isNullish v) eqn:Hnn.
  - rewrite validateDueDate_nullish by done. eauto.
  - destruct (conversion_returns host v Hconv) as [[d|] Hd].
    + rewrite (validateDueDate_valid host v d w Hnn Hd).
      repeat case_match; cbn [fst]; eauto.
    + rewrite validateDueDate_invalid by done. eauto.
Qed.

Lemma validateDueDate_Return v w e w' :
  Validation.validateDueDate host v w = (Return e, w') →
  conversion_throws v = false.
Proof.
  intros H. destruct (conversion_throws v) eqn:Hconv; [|done].
  rewrite validateDueDate_throws in H by done. discriminate.
Qed.

(** The outcome of create-mode validation, in terms of the five
    validators. *)
Lemma validateCreateTask_outcome req w :
  let b := body req in
  let due := Validation.validateDueDate host (get b "dueDate") w in
  match due.1 with
  | Throw error =>
      Validation.validateCreateTask host req w = (NextError error, due.2)
  | Return dueDateError =>
      let errors :=
        collect [Validation.validateTitle (get b "title");
                 Validation.validateDescription (get b "description");
                 Validation.validateStatus (get b "status");
                 Validation.validatePriority (get b "priority");
                 dueDateError] in
      ∃ req',
        Validation.validateCreateTask host req w
        = (match errors with
           | [] => Next req'
           | _ => NextError (ValidationError errors)
           end, due.2)
  end.
Proof.
  intros b due. unfold Validation.validateCreateTask, try_catch.
  fold b. rewrite bindE_run. fold due.
  destruct due as [[e|error] w'] eqn:Hdue; cbn [fst snd]; [|done].
  rewrite !push_if_collect, collect_five, nonempty_test.
  set (errors := collect _).
  destruct errors; [|unfold throw; by eauto].
  destruct (conversion_returns host (get b "dueDate")
              (validateDueDate_Return _ _ _ _ Hdue)) as [date Hdate].
  unfold bindE, completion, retE. rewrite Hdate.
  destruct (truthy (get b "dueDate")); eauto.
Qed.

(** The outcome of update-mode validation, in terms of the validators of
    the fields that are present. *)
Lemma validateUpdateTask_outcome req w :
  let b := body req in
  let present k := isDefined (get b k) in
  let due :=
    if present "dueDate"
    then Validation.validateDueDate host (get b "dueDate") w
    else (Return None, w) in
  if forallb (λ k, negb (present k)) taskFields then
    Validation.validateUpdateTask host req w
    = (NextError (ValidationError [Validation.body_error]), w)
  else
    match due.1 with
    | Throw error =>
        Validation.validateUpdateTask host req w = (NextError error, due.2)
    | Return dueDateError =>
        let errors :=
          collect [if present "title"
                   then Validation.validateTitle (get b "title") else None;
                   if present "description"
                   then Validation.validateDescription (get b "description") else None;
                   if present "status"
                   then Validation.validateStatus (get b "status") else None;
                   if present "priority"
                   then Validation.validatePriority (get b "priority") else None;
                   dueDateError] in
        ∃ req',
          Validation.validateUpdateTask host req w
          = (match errors with
             | [] => Next req'
             | _ => NextError (ValidationError errors)
             end, due.2)
    end.
Proof.
  intros b present due. unfold Validation.validateUpdateTask, try_catch.
  fold b. cbn [forallb taskFields]. rewrite andb_true_r, !andb_assoc.
  fold (present "title") (present "description") (present "status")
    (present "priority") (present "dueDate").
  destruct (_ && _) eqn:Hnone; [done|].
  rewrite !push_if_when. rewrite bindE_run.
  assert ((if present "dueDate"
           then Validation.validateDueDate host (get b "dueDate") w
           else (Return None, w)) = due) as Hdue by done.
  set (pre := (((_ ++ _) ++ _) ++ _) ++ _).
  destruct due as [[e|error] w'] eqn:Edue; cbn [fst snd].
  - assert ((if present "dueDate"
             then bindE (Validation.validateDueDate host (get b "dueDate"))
                        (λ dueDateError, retE (push_if pre dueDateError))
             else retE pre) w = (Return (pre ++ collect [e]), w')) as ->.
    { destruct (present "dueDate").
      - unfold bindE, retE. rewrite Hdue. by rewrite push_if_collect.
      - unfold retE. injection Hdue as <- <-. simpl. by rewrite app_nil_r. }
    subst pre. rewrite collect_five, nonempty_test.
    set (errors := collect _).
    destruct errors; [|unfold throw; by eauto].
    unfold bindE, completion, retE.
    destruct (present "dueDate") eqn:Hp; [|by eauto].
    destruct (conversion_returns host (get b "dueDate")
                (validateDueDate_Return _ _ _ _ Hdue)) as [date Hdate].
    rewrite Hdate. eauto.
  - assert ((if present "dueDate"
             then bindE (Validation.validateDueDate host (get b "dueDate"))
                        (λ dueDateError, retE (push_if pre dueDateError))
             else retE pre) w = (Throw error, w')) as ->.
    { destruct (present "dueDate"); [|done].
      unfold bindE. by rewrite Hdue. }
    done.
Qed.

(** When the conversion of the due date throws, the exception is what
    create-mode validation hands to the error handler, whatever the other
    validators found: the answer is 500, without field errors. *)
Lemma run_post_throws req w :
  conversion_throws (get (body req) "dueDate") = true →
  Validation.validateCreateTask host req w = (NextError conversion_error, w) ∧
  run (Router.post host) req w
  = ({| status := 500;
        json := BError "Cannot convert object to primitive value" 500 |}, w).
Proof.
  intros Hconv.
  pose proof (validateCreateTask_outcome req w) as Hout. cbv zeta in Hout.
  rewrite (validateDueDate_throws host _ w Hconv) in Hout. cbn [fst snd] in Hout.
  split; [done|].
  unfold Router.post. cbn [run]. unfold bind at 1. by rewrite Hout.
Qed.

Lemma validateUpdateTask_throws req w :
  conversion_throws (get (body req) "dueDate") = true →
  Validation.validateUpdateTask host req w = (NextError conversion_error, w).
Proof.
  intros Hconv.
  pose proof (validateUpdateTask_outcome req w) as Hout. cbv zeta in Hout.
  assert (isDefined (get (body req) "dueDate") = true) as Hdef
    by (by destruct (get (body req) "dueDate") as [| | | | |[]|]).
  cbn [forallb taskFields] in Hout. rewrite Hdef in Hout.
  rewrite !andb_false_r in Hout.
  by rewrite (validateDueDate_throws host _ w Hconv) in Hout.
Qed.

End Aggregators.







(** ** The store *)

Section Store.
Variable host : Host.

Lemma get_insert_eq (o : Obj) k v : get (<[k := v]> o) k = v.
Proof. unfold get. by rewrite lookup_insert_eq. Qed.

Lemma get_insert_ne (o : Obj) k k' v : k ≠ k' → get (<[k := v]> o) k' = get o k'.
Proof. intros H. unfold get. by rewrite lookup_insert_ne. Qed.

Lemma get_spread_absent (a b : Obj) k : b !! k = None → get (spread a b) k = get a k.
Proof. intros H. unfold get, spread. by rewrite lookup_union_r. Qed.

Lemma get_spread_present (a b : Obj) k v :
  b !! k = Some v → get (spread a b) k = v.
Proof.
  intros H. unfold get, spread. by rewrite (lookup_union_Some_l _ _ _ _ H).
Qed.

(** What [createTask] returns and leaves behind, on data whose dueDate can
    be converted. *)
Lemma createTask_run taskData w date :
  new_Date host (get taskData "dueDate") = Return date →
  let id := randomUUID host (uuidsDrawn w) in
  ∃ newTask,
    TaskStore.createTask host taskData w
    = (Return newTask,
       {| tasks := <[id := newTask]> (tasks w);
          clockReads := S (S (clockReads w));
          uuidsDrawn := S (uuidsDrawn w) |}) ∧
    get newTask "id" = VStr id ∧
    get newTask "title" = get taskData "title" ∧
    get newTask "description" = get taskData "description" ∧
    get newTask "status"
      = JS.or (get taskData "status") (VStr (TaskStatus_value PENDING)) ∧
    get newTask "priority"
      = JS.or (get taskData "priority") (VStr (TaskPriority_value MEDIUM)) ∧
    get newTask "dueDate"
      = (if truthy (get taskData "dueDate") then VDate date else VUndefined) ∧
    get newTask "createdAt" = VDate (Some (clock host (clockReads w))) ∧
    get newTask "updatedAt" = VDate (Some (clock host (S (clockReads w)))).
Proof.
  intros Hdate id.
  unfold TaskStore.createTask, bindE, retE, lift, completion, crypto_randomUUID,
    Date_now, TaskStore.tasks_set.
  rewrite Hdate. cbn [fst snd tasks clockReads uuidsDrawn].
  destruct (truthy (get taskData "dueDate"));
    (eexists; split; [reflexivity|]);
    (split_and!; try done;
     repeat first [apply get_insert_eq | rewrite get_insert_ne by done]).
Qed.

(** On data whose dueDate cannot be converted, [createTask] throws after it
    has drawn the identifier and before it reads the clock: nothing is
    stored. *)
Lemma createTask_throws taskData w :
  conversion_throws (get taskData "dueDate") = true →
  TaskStore.createTask host taskData w
  = (Throw conversion_error,
     {| tasks := tasks w; clockReads := clockReads w;
        uuidsDrawn := S (uuidsDrawn w) |}).
Proof.
  intros H. unfold TaskStore.createTask, bindE, retE, lift, completion,
    crypto_randomUUID.
  by destruct (get taskData "dueDate") as [| | | | |[]|].
Qed.

(** What [updateTask] returns and leaves behind for a stored task, on data
    whose dueDate can be converted. *)
Lemma updateTask_run id taskData existingTask w date :
  tasks w !! id = Some existingTask →
  new_Date host (get taskData "dueDate") = Return date →
  let dueDate :=
    if isDefined (get taskData "dueDate")
    then VDate date
    else get existingTask "dueDate" in
  let updatedTask : Obj :=
    <["updatedAt" := VDate (Some (clock host (clockReads w)))]> (
    <["dueDate" := dueDate]> (spread existingTask taskData)) in
  TaskStore.updateTask host id taskData w
  = (Return (Some updatedTask),
     {| tasks := <[id := updatedTask]> (tasks w);
        clockReads := S (clockReads w);
        uuidsDrawn := uuidsDrawn w |}).
Proof.
  intros H Hdate. unfold TaskStore.updateTask, TaskStore.getTaskById, bindE, retE,
    lift, completion, Date_now, TaskStore.tasks_set.
  rewrite H, Hdate. by destruct (isDefined (get taskData "dueDate")).
Qed.

(** On data whose dueDate cannot be converted, [updateTask] throws and
    leaves the stored task as it was. *)
Lemma updateTask_throws id taskData existingTask w :
  tasks w !! id = Some existingTask →
  conversion_throws (get taskData "dueDate") = true →
  TaskStore.updateTask host id taskData w = (Throw conversion_error, w).
Proof.
  intros H Hconv. unfold TaskStore.updateTask, TaskStore.getTaskById, bindE, retE,
    lift, completion.
  rewrite H. by destruct (get taskData "dueDate") as [| | | | |[]|].
Qed.

(** A property that the payload does not carry keeps its value; dueDate is
    rebuilt from the stored one, updatedAt is always set anew. *)
Lemma updateTask_absent id taskData existingTask w k :
  tasks w !! id = Some existingTask →
  conversion_throws (get taskData "dueDate") = false →
  k ≠ "updatedAt" →
  taskData !! k = None →
  ∃ updatedTask,
    (TaskStore.updateTask host id taskData w).1 = Return (Some updatedTask) ∧
    get updatedTask k = get existingTask k.
Proof.
  intros Hid Hconv Hne Habs.
  destruct (conversion_returns host _ Hconv) as [date Hdate].
  pose proof (updateTask_run id taskData existingTask w date Hid Hdate) as Hrun.
  cbv zeta in Hrun. rewrite Hrun. cbn [fst]. eexists. split; [done|].
  rewrite get_insert_ne by done.
  destruct (decide (k = "dueDate")) as [->|Hdd].
  - rewrite get_insert_eq. unfold get at 1 2. by rewrite Habs.
  - rewrite get_insert_ne by done. by apply get_spread_absent.
Qed.

Lemma updateTask_missing id taskData w :
  tasks w !! id = None →
  TaskStore.updateTask host id taskData w = (Return None, w).
Proof.
  intros H. unfold TaskStore.updateTask, TaskStore.getTaskById, bindE, retE, lift.
  by rewrite H.
Qed.

End Store.

(** C3 (as amended).  An update of a stored task returns and stores a
    record in which each of title, description, status, priority and
    dueDate that the payload does not carry has the value it had before;
    its updatedAt is the reading of the clock taken by the update, which is
    later than the previous updatedAt exactly when the clock has moved on
    since that one was taken.  (The one payload on which the store does not
    return a record is one whose dueDate cannot be converted to a primitive
    value: there it throws, and state and stored task stay as they
    were.) *)
Theorem update_keeps_absent_fields host w id existingTask taskData :
  tasks w !! id = Some existingTask →
  let result := TaskStore.updateTask host id taskData w in
  let now := clock host (clockReads w) in
  if conversion_throws (get taskData "dueDate") then
    result = (Throw conversion_error, w)
  else
    ∃ updatedTask,
      result.1 = Return (Some updatedTask) ∧
      tasks result.2 !! id = Some updatedTask ∧
      (∀ k, k ∈ taskFields → taskData !! k = None →
            get updatedTask k = get existingTask k) ∧
      get updatedTask "updatedAt" = VDate (Some now) ∧
      ∀ before, get existingTask "updatedAt" = VDate (Some before) →
        (Date_lt (Some before) (Some now) = true ↔ before < now).
Proof.
  intros Hid result now. subst result.
  destruct (conversion_throws (get taskData "dueDate")) eqn:Hconv.
  { by apply updateTask_throws with existingTask. }
  destruct (conversion_returns host _ Hconv) as [date Hdate].
  pose proof (updateTask_run host id taskData existingTask w date Hid Hdate) as Hrun.
  cbv zeta in Hrun. rewrite Hrun. cbn [fst snd tasks].
  eexists. split_and!; [done|by rewrite lookup_insert_eq| | |].
  - intros k Hk Habs. unfold taskFields in Hk.
    assert (k ≠ "updatedAt") as Hne.
    { intros ->. repeat (apply elem_of_cons in Hk as [Hk|Hk]; [done|]).
      by apply elem_of_nil in Hk. }
    destruct (updateTask_absent host id taskData existingTask w k Hid Hconv Hne Habs)
      as (updatedTask & Hres & Hkeep).
    rewrite Hrun in Hres. cbn [fst] in Hres. by injection Hres as <-.
  - apply get_insert_eq.
  - intros before _. unfold Date_lt. apply Z.ltb_lt.
Qed.

(** A task created and then completed, on a clock that ticks. *)
Lemma update_keeps_absent_fields_witness :
  let w1 := (TaskStore.createTask Demo.ticking (obj [("title", VStr "Do taxes")])
               initialWorld).2 in
  ∃ updatedTask,
    (TaskStore.updateTask Demo.ticking Demo.uuid
       (obj [("status", VStr "completed")]) w1).1 = Return (Some updatedTask) ∧
    get updatedTask "title" = VStr "Do taxes" ∧
    get updatedTask "updatedAt" = VDate (Some (Demo.noon + 2)).
Proof.
  intros w1.
  pose proof (update_keeps_absent_fields Demo.ticking w1 Demo.uuid
                (default ∅ (tasks w1 !! Demo.uuid))
                (obj [("status", VStr "completed")])) as H.
  destruct H as (updatedTask & Hres & _ & Hkeep & Hat & _).
  - reflexivity.
  - exists updatedTask. split_and!; [exact Hres| |exact Hat].
    rewrite (Hkeep "title"); [reflexivity|set_solver|reflexivity].
Defined.

(** C3, counterexample.  A task is created and updated within one
    millisecond: every reading of the clock gives the same instant, and
    the updatedAt of the updated record equals the one it had before. *)
Lemma update_same_millisecond :
  let w1 := (TaskStore.createTask Demo.frozen (obj [("title", VStr "Do taxes")])
               initialWorld).2 in
  let before := tasks w1 !! Demo.uuid in
  ∃ after,
    (TaskStore.updateTask Demo.frozen Demo.uuid
       (obj [("status", VStr "completed")]) w1).1 = Return (Some after) ∧
    (λ task, get task "updatedAt") <$> before = Some (VDate (Some Demo.noon)) ∧
    get after "updatedAt" = VDate (Some Demo.noon) ∧
    get after "status" = VStr "completed".
Proof. eexists. vm_compute. done. Qed.

(** ** The identifier validator *)

Lemma validateTaskId_valid req w :
  Validation.regex_test Validation.uuidRegex (params_id req) = true →
  Validation.validateTaskId req w = (Next req, w).
Proof.
  intros H. unfold Validation.validateTaskId, try_catch. rewrite H.
  by destruct (params_id req).
Qed.

Lemma validateTaskId_invalid req w :
  Validation.regex_test Validation.uuidRegex (params_id req) = false →
  ∃ e, field e = "id" ∧
       Validation.validateTaskId req w = (NextError (ValidationError [e]), w).
Proof.
  intros H. unfold Validation.validateTaskId, try_catch. rewrite H.
  destruct (truthy (VStr (params_id req)));
    (eexists; split; [|reflexivity]; reflexivity).
Qed.

(** C9.  When the id path parameter does not match the UUID v4 format,
    the identifier validator raises a validation failure with one error,
    for field [id]; whatever handlers follow it in the chain are skipped,
    so on the get, update and delete routes the controller and with it
    the store are not reached: the answer is 400 with that error and the
    state is the one before the request. *)
Theorem invalid_id_never_reaches_store host req w :
  Validation.regex_test Validation.uuidRegex (params_id req) = false →
  ∃ e,
    field e = "id" ∧
    Validation.validateTaskId req w = (NextError (ValidationError [e]), w) ∧
    let rejected :=
      ({| status := 400; json := BValidation "Validation failed" [e] |}, w) in
    (∀ rest, run (Validation.validateTaskId :: rest) req w = rejected) ∧
    run Router.get_one req w = rejected ∧
    run (Router.put host) req w = rejected ∧
    run Router.delete req w = rejected.
Proof.
  intros H. destruct (validateTaskId_invalid req w H) as (e & He & Hv).
  exists e. split; [done|]. split; [done|]. cbv zeta. split_and!.
  - intros rest. cbn [run]. unfold bind. by rewrite Hv.
  - unfold Router.get_one. cbn [run]. unfold bind at 1. by rewrite Hv.
  - unfold Router.put. cbn [run]. unfold bind at 1. by rewrite Hv.
  - unfold Router.delete. cbn [run]. unfold bind at 1. by rewrite Hv.
Qed.

(** A delete with a malformed id leaves a stored task in place. *)
Lemma invalid_id_never_reaches_store_witness :
  let w1 := (TaskStore.createTask Demo.ticking (obj [("title", VStr "Do taxes")])
               initialWorld).2 in
  let req := {| params_id := "non-existent-id"; body := ∅ |} in
  (run Router.delete req w1).2 = w1 ∧
  status (run Router.delete req w1).1 = 400.
Proof.
  intros w1 req.
  destruct (invalid_id_never_reaches_store Demo.ticking req w1)
    as (e & _ & _ & _ & _ & _ & Hdel).
  - reflexivity.
  - rewrite Hdel. split; reflexivity.
Defined.

(** ** What validation hands on to the controllers *)

Section HandedOn.
Variable host : Host.

Lemma collect_nil (a b c d e : option ValidationErrorDetail) :
  collect [a; b; c; d; e] = [] →
  a = None ∧ b = None ∧ c = None ∧ d = None ∧ e = None.
Proof. by destruct a, b, c, d, e. Qed.

Lemma set_body_other req k v k' :
  k ≠ k' → body (Validation.set_body req k v) !! k' = body req !! k'.
Proof. intros H. unfold Validation.set_body. cbn [body]. by rewrite lookup_insert_ne. Qed.

Lemma set_body_id req k v :
  params_id (Validation.set_body req k v) = params_id req.
Proof. done. Qed.

Lemma validateDueDate_tasks v w :
  tasks (Validation.validateDueDate host v w).2 = tasks w.
Proof.
  unfold Validation.validateDueDate, bindE, retE, lift, completion, Date_now.
  by repeat case_match.
Qed.

(** A create request that passes validation: no validator found an
    error, and only title, description and dueDate may have been
    rewritten. *)
Lemma validateCreateTask_Next req w req' w1 :
  Validation.validateCreateTask host req w = (Next req', w1) →
  let b := body req in
  Validation.validateTitle (get b "title") = None ∧
  Validation.validateDescription (get b "description") = None ∧
  Validation.validateStatus (get b "status") = None ∧
  Validation.validatePriority (get b "priority") = None ∧
  Validation.validateDueDate host (get b "dueDate") w = (Return None, w1) ∧
  params_id req' = params_id req ∧
  conversion_throws (get (body req') "dueDate") = false ∧
  ∀ k, k ≠ "title" → k ≠ "description" → k ≠ "dueDate" →
       body req' !! k = body req !! k.
Proof.
  intros H b. unfold Validation.validateCreateTask, try_catch in H. fold b in H.
  rewrite bindE_run in H.
  destruct (Validation.validateDueDate host (get b "dueDate") w)
    as [[e|error] w'] eqn:Hdue; [|discriminate].
  rewrite !push_if_collect, collect_five, nonempty_test in H.
  destruct (collect _) eqn:Hc; [|discriminate].
  apply collect_nil in Hc as (-> & -> & -> & -> & ->).
  pose proof (validateDueDate_Return host _ _ _ _ Hdue) as Hconv.
  destruct (conversion_returns host _ Hconv) as [date Hdate].
  unfold bindE, completion, retE in H. rewrite Hdate in H.
  set (r := if truthy (get b "description") then _ else _) in H.
  assert (params_id r = params_id req) as Hrid
    by (subst r; by repeat case_match).
  assert (∀ k, k ≠ "title" → k ≠ "description" → body r !! k = body req !! k)
    as Hrk.
  { intros k H1 H2. subst r.
    repeat case_match; rewrite ?set_body_other by done; done. }
  clearbody r.
  destruct (truthy (get b "dueDate")) eqn:Htr; injection H as <- <-.
  - split_and!; try done.
    + unfold Validation.set_body, get. cbn [body]. by rewrite lookup_insert_eq.
    + intros k H1 H2 H3. rewrite set_body_other by done. by apply Hrk.
  - split_and!; try done.
    + unfold get. rewrite Hrk by done. exact Hconv.
    + intros k H1 H2 H3. by apply Hrk.
Qed.

(** An update request that passes validation: the validators of the
    present fields found no error, and only the present ones among title,
    description and dueDate have been rewritten. *)
Lemma validateUpdateTask_Next req w req' w1 :
  Validation.validateUpdateTask host req w = (Next req', w1) →
  let b := body req in
  (isDefined (get b "status") → Validation.validateStatus (get b "status") = None) ∧
  (isDefined (get b "priority") →
     Validation.validatePriority (get b "priority") = None) ∧
  tasks w1 = tasks w ∧
  params_id req' = params_id req ∧
  conversion_throws (get (body req') "dueDate") = false ∧
  (∀ k, k ≠ "title" → k ≠ "description" → k ≠ "dueDate" →
        body req' !! k = body req !! k) ∧
  ∀ k, body req !! k = None → body req' !! k = None.
Proof.
  intros H b.
  unfold Validation.validateUpdateTask, try_catch in H. fold b in H.
  destruct (_ && _); [discriminate|].
  rewrite !push_if_when in H. rewrite bindE_run in H.
  set (pre := (((_ ++ _) ++ _) ++ _) ++ _) in H.
  assert ((∃ e w', (if isDefined (get b "dueDate")
           then bindE (Validation.validateDueDate host (get b "dueDate"))
                      (λ dueDateError, retE (push_if pre dueDateError))
           else retE pre) w = (Return (pre ++ collect [e]), w') ∧ tasks w' = tasks w ∧
           (isDefined (get b "dueDate") = true →
            conversion_throws (get b "dueDate") = false)) ∨
          (∃ error w', (if isDefined (get b "dueDate")
           then bindE (Validation.validateDueDate host (get b "dueDate"))
                      (λ dueDateError, retE (push_if pre dueDateError))
           else retE pre) w = (Throw error, w')))
    as [(e & w' & He & Hw & Hconv)|(error & w' & He)].
  { destruct (isDefined (get b "dueDate")).
    - rewrite bindE_run. unfold retE.
      pose proof (validateDueDate_tasks (get b "dueDate") w) as Ht.
      destruct (Validation.validateDueDate host (get b "dueDate") w)
        as [[e|error] w'] eqn:Hdue; [left|right; eauto].
      exists e, w'. rewrite push_if_collect.
      split_and!; [done|done|]. intros _.
      by apply (validateDueDate_Return host _ _ _ _ Hdue).
    - left. exists None, w. unfold retE. simpl. by rewrite app_nil_r. }
  2:{ rewrite He in H. discriminate. }
  rewrite He in H. clear He. subst pre.
  rewrite collect_five, nonempty_test in H.
  destruct (collect _) eqn:Hc; [|discriminate].
  apply collect_nil in Hc as (Ht & Hd & Hs & Hp & ->).
  unfold bindE, completion, retE in H.
  set (r := if isDefined (get b "description") then _ else _) in H.
  assert (params_id r = params_id req) as Hrid
    by (subst r; by repeat case_match).
  assert (∀ k, k ≠ "title" → k ≠ "description" → body r !! k = body req !! k)
    as Hrk.
  { intros k H1 H2. subst r.
    repeat case_match; rewrite ?set_body_other by done; done. }
  assert (∀ k, body req !! k = None → body r !! k = None) as Hrnone.
  { intros k Hk. subst r.
    assert (get b k = VUndefined) as Hget by (unfold get, b; by rewrite Hk).
    destruct (decide (k = "title")) as [->|H1];
      [rewrite Hget; cbn [isDefined];
       repeat case_match; rewrite ?set_body_other by done; done|].
    destruct (decide (k = "description")) as [->|H2];
      [rewrite Hget; cbn [isDefined];
       repeat case_match; rewrite ?set_body_other by done; done|].
    repeat case_match; rewrite ?set_body_other by done; done. }
  clearbody r.
  destruct (isDefined (get b "dueDate")) eqn:Hdef.
  - destruct (conversion_returns host _ (Hconv eq_refl)) as [date Hdate].
    rewrite Hdate in H. injection H as <- <-.
    split_and!; try done.
    + by destruct (isDefined (get b "status")).
    + by destruct (isDefined (get b "priority")).
    + unfold Validation.set_body, get. cbn [body]. by rewrite lookup_insert_eq.
    + intros k H1 H2 H3. rewrite set_body_other by done. by apply Hrk.
    + intros k Hk. destruct (decide (k = "dueDate")) as [->|H3].
      * assert (get b "dueDate" = VUndefined) as Hget
          by (unfold get, b; by rewrite Hk).
        by rewrite Hget in Hdef.
      * rewrite set_body_other by done. by apply Hrnone.
  - injection H as <- <-.
    split_and!; try done.
    + by destruct (isDefined (get b "status")).
    + by destruct (isDefined (get b "priority")).
    + unfold get. rewrite Hrk by done. fold (get (body req) "dueDate"). fold b.
      by destruct (get b "dueDate") as [| | | | |[]|].
    + intros k H1 H2 H3. by apply Hrk.
Qed.

End HandedOn.

(** ** Enumerations *)

Lemma validateStatus_None s :
  Validation.validateStatus s = None →
  isNullish s = true ∨ includes TaskStatus_values s = true.
Proof.
  unfold Validation.validateStatus.
  destruct (isNullish s); [by left|].
  destruct (includes _ s); [by right|done].
Qed.

Lemma validatePriority_None p :
  Validation.validatePriority p = None →
  isNullish p = true ∨ includes TaskPriority_values p = true.
Proof.
  unfold Validation.validatePriority.
  destruct (isNullish p); [by left|].
  destruct (includes _ p); [by right|done].
Qed.

Lemma TaskStatus_values_truthy : "" ∉ TaskStatus_values.
Proof. apply (bool_decide_unpack _). reflexivity. Qed.

Lemma TaskPriority_values_truthy : "" ∉ TaskPriority_values.
Proof. apply (bool_decide_unpack _). reflexivity. Qed.

(** [v || dflt] on a value that is absent, null or a member of an
    enumeration without the empty string. *)
Lemma or_default values v dflt :
  "" ∉ values →
  isNullish v = true ∨ includes values v = true →
  JS.or v dflt = if isNullish v then dflt else v.
Proof.
  intros Hne [H|H]; unfold JS.or.
  - by destruct v.
  - destruct v; try done. cbn in *.
    apply bool_decide_eq_true in H.
    destruct (String.eqb_spec s ""); [by subst|done].
Qed.

Lemma includes_default values v dflt :
  includes values dflt = true →
  isNullish v = true ∨ includes values v = true →
  includes values (if isNullish v then dflt else v) = true.
Proof. intros Hd [H|H]; [by rewrite H|]. by destruct (isNullish v). Qed.

(** C8.  For a create payload that passes validation, the task that the
    create route returns and stores has status [pending] when the payload
    gives no status (the field is absent, or null, which the validator
    lets pass as not supplied) and the status of the payload otherwise;
    likewise priority with [medium]; both are then members of their
    enumerations. *)
Theorem create_applies_defaults host req w req' w1 :
  Validation.validateCreateTask host req w = (Next req', w1) →
  let created := TaskStore.createTask host (body req') w1 in
  let status := get (body req) "status" in
  let priority := get (body req) "priority" in
  ∃ task,
    created.1 = Return task ∧
    run (Router.post host) req w
    = ({| status := 201;
          json := BTask (Some "Task created successfully") task |}, created.2) ∧
    tasks created.2 !! randomUUID host (uuidsDrawn w1) = Some task ∧
    get task "status"
    = (if isNullish status then VStr (TaskStatus_value PENDING) else status) ∧
    get task "priority"
    = (if isNullish priority then VStr (TaskPriority_value MEDIUM) else priority) ∧
    includes TaskStatus_values (get task "status") = true ∧
    includes TaskPriority_values (get task "priority") = true.
Proof.
  intros Hv created status priority.
  destruct (validateCreateTask_Next host req w req' w1 Hv)
    as (_ & _ & Hs & Hp & _ & _ & Hconv & Hsame).
  apply validateStatus_None in Hs. apply validatePriority_None in Hp.
  destruct (conversion_returns host _ Hconv) as [date Hdate].
  destruct (createTask_run host (body req') w1 date Hdate)
    as (task & Hrun & _ & _ & _ & Hst & Hpr & _).
  fold created in Hrun.
  assert (get (body req') "status" = status) as Es
    by (unfold get; by rewrite Hsame).
  assert (get (body req') "priority" = priority) as Ep
    by (unfold get; by rewrite Hsame).
  rewrite Es in Hst. rewrite Ep in Hpr.
  rewrite (or_default TaskStatus_values) in Hst
    by auto using TaskStatus_values_truthy.
  rewrite (or_default TaskPriority_values) in Hpr
    by auto using TaskPriority_values_truthy.
  exists task. split_and!.
  - by rewrite Hrun.
  - unfold Router.post. cbn [run]. unfold bind at 1. rewrite Hv.
    unfold Controller.createTask, bind, ret. rewrite try_catch_run, bindE_run.
    fold created. by rewrite Hrun.
  - rewrite Hrun. cbn [snd tasks]. apply lookup_insert_eq.
  - done.
  - done.
  - rewrite Hst. by apply includes_default.
  - rewrite Hpr. by apply includes_default.
Qed.

(** A payload with a priority and without a status. *)
Lemma create_applies_defaults_witness :
  let req := {| params_id := "";
                body := obj [("title", VStr "Do taxes"); ("priority", VStr "critical")] |} in
  ∃ created,
    (TaskStore.createTask Demo.ticking (body req) initialWorld).1 = Return created ∧
    get created "status" = VStr "pending" ∧ get created "priority" = VStr "critical".
Proof.
  intros req.
  destruct (create_applies_defaults Demo.ticking req initialWorld req initialWorld)
    as (task & Hres & _ & _ & Hs & Hp & _).
  - reflexivity.
  - exists task. split_and!; [exact Hres|exact Hs|exact Hp].
Defined.

(** ** Updates through the route *)

Lemma put_validated host req w req' w1 :
  Validation.regex_test Validation.uuidRegex (params_id req) = true →
  Validation.validateUpdateTask host req w = (Next req', w1) →
  run (Router.put host) req w = run [Controller.updateTask host] req' w1.
Proof.
  intros Hid Hv. unfold Router.put. cbn [run]. unfold bind at 1.
  rewrite (validateTaskId_valid req w Hid). unfold bind at 1. by rewrite Hv.
Qed.

Lemma put_found host req w existingTask :
  tasks w !! params_id req = Some existingTask →
  conversion_throws (get (body req) "dueDate") = false →
  ∃ updatedTask,
    TaskStore.updateTask host (params_id req) (body req) w
    = (Return (Some updatedTask),
       {| tasks := <[params_id req := updatedTask]> (tasks w);
          clockReads := S (clockReads w);
          uuidsDrawn := uuidsDrawn w |}) ∧
    run [Controller.updateTask host] req w
    = ({| status := 200;
          json := BTask (Some "Task updated successfully") updatedTask |},
       {| tasks := <[params_id req := updatedTask]> (tasks w);
          clockReads := S (clockReads w);
          uuidsDrawn := uuidsDrawn w |}).
Proof.
  intros Hex Hconv.
  destruct (conversion_returns host _ Hconv) as [date Hdate].
  pose proof (updateTask_run host (params_id req) (body req) existingTask w date
                Hex Hdate) as Hrun.
  cbv zeta in Hrun. eexists. split; [exact Hrun|].
  cbn [run]. unfold Controller.updateTask, bind.
  rewrite try_catch_run, bindE_run. by rewrite Hrun.
Qed.

(** C10.  On the update route, for a stored task, the payload
    [{dueDate: null}] passes validation: null is not [undefined], so the
    payload counts as carrying a field, and the dueDate validator accepts
    null.  The middleware then replaces the null by [new Date(null)], the
    epoch, and the store keeps it: the task's dueDate becomes 1 January
    1970.  A payload that names that instant outright (any value other
    than null that [Date] reads as the epoch) is turned down with the
    past-date error, once the clock shows 2 January 1970 or later at a
    fixed offset of local time, or 6 January 1970 or later where the
    offset varies within a day of UTC. *)
Theorem update_dueDate_null_stores_epoch host w id existingTask :
  Validation.regex_test Validation.uuidRegex id = true →
  tasks w !! id = Some existingTask →
  let req := {| params_id := id; body := obj [("dueDate", VNull)] |} in
  let result := run (Router.put host) req w in
  Validation.validateUpdateTask host req w
  = (Next {| params_id := id; body := obj [("dueDate", VDate (Some 0))] |}, w) ∧
  (∃ updatedTask,
     result.1 = {| status := 200;
                   json := BTask (Some "Task updated successfully") updatedTask |} ∧
     tasks result.2 !! id = Some updatedTask ∧
     get updatedTask "dueDate" = VDate (Some 0)) ∧
  ∀ v, isNullish v = false → new_Date host v = Return (Some 0) →
       (fixed_offset host ∧
        msPerDay <= clock host (clockReads w) <= maxTime) ∨
       (offsets_within_a_day host ∧
        5 * msPerDay <= clock host (clockReads w) <= maxTime - 2 * msPerDay) →
       (Validation.validateDueDate host v w).1
       = Return (Some Validation.dueDate_past_error).
Proof.
  intros Hid Hex req result.
  assert (Validation.validateUpdateTask host req w
          = (Next {| params_id := id; body := obj [("dueDate", VDate (Some 0))] |}, w))
    as Hv by reflexivity.
  split_and!.
  - exact Hv.
  - subst result. rewrite (put_validated host req w _ w Hid Hv).
    destruct (put_found host
                {| params_id := id; body := obj [("dueDate", VDate (Some 0))] |}
                w existingTask Hex eq_refl) as (updatedTask & Hup & ->).
    pose proof (updateTask_run host id (obj [("dueDate", VDate (Some 0))])
                  existingTask w (Some 0) Hex eq_refl) as Hrun.
    cbv zeta in Hrun. cbn [params_id body] in Hup. rewrite Hrun in Hup.
    injection Hup as <-. cbn [fst snd tasks params_id].
    eexists. split_and!; [reflexivity|by rewrite lookup_insert_eq|].
    rewrite get_insert_ne by done. by rewrite get_insert_eq.
  - intros v Hnn Hd Hzone.
    rewrite (validateDueDate_valid host v 0 w Hnn Hd).
    assert (Z.abs (startOfDay host 0) <= maxTime ∧
            Z.abs (startOfDay host (clock host (clockReads w))) <= maxTime ∧
            startOfDay host 0 < startOfDay host (clock host (clockReads w)))
      as (Hrep0 & Hrep1 & Hlt).
    { destruct Hzone as [[Hfix [Hlo Hhi]]|[Hoff [Hlo Hhi]]].
      - pose proof (fixed_offset_bounds host 0 Hfix) as H0.
        pose proof (fixed_offset_bounds host (clock host (clockReads w)) Hfix) as H1.
        unfold msPerDay, maxTime in *. lia.
      - pose proof (startOfDay_near host 0 Hoff) as H0.
        pose proof (startOfDay_near host (clock host (clockReads w)) Hoff) as H1.
        unfold msPerDay, maxTime in *. lia. }
    rewrite !TimeClip_Some by done.
    unfold Date_lt.
    destruct (Z.ltb_spec (startOfDay host 0)
                (startOfDay host (clock host (clockReads w)))); [done|lia].
Qed.

(** The task of the example, with the dueDate it is given on creation
    replaced by the epoch. *)
Lemma update_dueDate_null_stores_epoch_witness :
  let w1 := (run (Router.post Demo.ticking)
               {| params_id := ""; body := obj [("title", VStr "Do taxes")] |}
               initialWorld).2 in
  let req := {| params_id := Demo.uuid; body := obj [("dueDate", VNull)] |} in
  (λ task, get task "dueDate") <$> tasks (run (Router.put Demo.ticking) req w1).2 !! Demo.uuid
  = Some (VDate (Some 0)) ∧
  (Validation.validateDueDate Demo.ticking (VStr "1970-01-01") w1).1
  = Return (Some Validation.dueDate_past_error).
Proof.
  intros w1 req.
  destruct (update_dueDate_null_stores_epoch Demo.ticking w1 Demo.uuid
              (default ∅ (tasks w1 !! Demo.uuid)))
    as (_ & (updatedTask & _ & Hstored & Hdue) & Hpast).
  - reflexivity.
  - reflexivity.
  - split.
    + fold req in Hstored. rewrite Hstored. cbn [fmap option_fmap option_map].
      by rewrite Hdue.
    + apply Hpast; [reflexivity|reflexivity|].
      left. split; [by exists 0|]. split; vm_compute; discriminate.
Defined.

(** C1, at the failing input.  A task is created from [{title: "Do
    taxes"}] and then updated with [{status: null, priority: null}].  The
    update passes validation, since both validators let null pass as "not
    supplied", and is answered with 200; the merge then writes the two
    nulls over the stored values, so the stored task's status and priority
    are null, no members of their enumerations. *)
Theorem update_null_status_is_stored :
  let w1 := (run (Router.post Demo.ticking)
               {| params_id := ""; body := obj [("title", VStr "Do taxes")] |}
               initialWorld).2 in
  let req := {| params_id := Demo.uuid;
                body := obj [("status", VNull); ("priority", VNull)] |} in
  let result := run (Router.put Demo.ticking) req w1 in
  let before := tasks w1 !! Demo.uuid in
  let after := tasks result.2 !! Demo.uuid in
  (λ task, get task "status") <$> before = Some (VStr "pending") ∧
  (λ task, get task "priority") <$> before = Some (VStr "medium") ∧
  (Validation.validateUpdateTask Demo.ticking req w1).1 = Next req ∧
  status result.1 = 200 ∧
  (λ task, get task "status") <$> after = Some VNull ∧
  (λ task, get task "priority") <$> after = Some VNull ∧
  (λ task, includes TaskStatus_values (get task "status")) <$> after = Some false ∧
  (λ task, includes TaskPriority_values (get task "priority")) <$> after = Some false.
Proof. vm_compute. done. Qed.

(** C2, at the failing input.  A task is created from [{title: "Do
    taxes"}] and then updated with [{title: "Renamed", id: "hacked",
    createdAt: "never"}].  Validation looks at the five task fields only
    and lets the payload through; the merge copies every property of the
    payload over the stored record, and only dueDate and updatedAt are set
    after it, so the record kept under the task's identifier now has id
    [hacked] and createdAt [never]. *)
Theorem update_overwrites_id_and_createdAt :
  let w1 := (run (Router.post Demo.ticking)
               {| params_id := ""; body := obj [("title", VStr "Do taxes")] |}
               initialWorld).2 in
  let req := {| params_id := Demo.uuid;
                body := obj [("title", VStr "Renamed"); ("id", VStr "hacked");
                             ("createdAt", VStr "never")] |} in
  let result := run (Router.put Demo.ticking) req w1 in
  let before := tasks w1 !! Demo.uuid in
  let after := tasks result.2 !! Demo.uuid in
  (λ task, get task "id") <$> before = Some (VStr Demo.uuid) ∧
  (λ task, get task "createdAt") <$> before = Some (VDate (Some Demo.noon)) ∧
  (Validation.validateUpdateTask Demo.ticking req w1).1 = Next req ∧
  status result.1 = 200 ∧
  (λ task, get task "title") <$> after = Some (VStr "Renamed") ∧
  (λ task, get task "id") <$> after = Some (VStr "hacked") ∧
  (λ task, get task "createdAt") <$> after = Some (VStr "never").
Proof. vm_compute. done. Qed.

(** ** Sanitization *)

Lemma trimStart_length s : JS.length (trimStart s) <= JS.length s.
Proof.
  unfold JS.length. induction s as [|c s IH]; simpl; [done|].
  destruct (isWhiteSpace c); simpl; lia.
Qed.

Lemma trimEnd_length s : JS.length (trimEnd s) <= JS.length s.
Proof.
  unfold JS.length. induction s as [|c s IH]; simpl; [done|].
  destruct (trimEnd s); [destruct (isWhiteSpace c)|]; simpl in *; lia.
Qed.

Lemma trim_length s : JS.length (trim s) <= JS.length s.
Proof.
  unfold trim. pose proof (trimEnd_length (trimStart s)).
  pose proof (trimStart_length s). lia.
Qed.

Lemma trimStart_occurs c s : occurs c s = false → occurs c (trimStart s) = false.
Proof.
  induction s as [|c' s IH]; simpl; [done|].
  destruct (Ascii.eqb c c') eqn:E; [done|]. intros H.
  destruct (isWhiteSpace c'); [by apply IH|]. simpl. by rewrite E.
Qed.

Lemma trimEnd_occurs c s : occurs c s = false → occurs c (trimEnd s) = false.
Proof.
  induction s as [|c' s IH]; simpl; [done|].
  destruct (Ascii.eqb c c') eqn:E; [done|]. intros H. specialize (IH H).
  destruct (trimEnd s); [destruct (isWhiteSpace c')|]; simpl in *; by rewrite ?E.
Qed.

Lemma trim_occurs c s : occurs c s = false → occurs c (trim s) = false.
Proof. intros H. unfold trim. by apply trimEnd_occurs, trimStart_occurs. Qed.

Lemma occurs_app c s t : occurs c (s +:+ t) = occurs c s || occurs c t.
Proof.
  induction s as [|c' s IH]; simpl; [done|].
  by destruct (Ascii.eqb c c').
Qed.

(** Escaping leaves no angle bracket. *)
Lemma escapeHtml_no_bracket s :
  occurs "<" (Demo.escapeHtml s) = false ∧ occurs ">" (Demo.escapeHtml s) = false.
Proof.
  induction s as [|c s [IH1 IH2]]; simpl; [done|].
  rewrite !occurs_app, IH1, IH2, !orb_false_r.
  destruct (Ascii.eqb c "&") eqn:E1; [done|].
  destruct (Ascii.eqb c "<") eqn:E2; [done|].
  destruct (Ascii.eqb c ">") eqn:E3; [done|].
  cbn [occurs]. by rewrite (Ascii.eqb_sym "<" c), (Ascii.eqb_sym ">" c), E2, E3.
Qed.

(** C4 (as amended).  On a host with the sanitizer of the specification,
    which escapes the tags that [sanitizeText] disallows, whatever its
    clock: for a title that passes the title validator, whose trimmed
    length is thus between 3 and 100, the sanitized title has no angle
    bracket left and so contains no HTML tag.  It is no longer than the
    escaped title, which nothing bounds by 100: escaping writes an entity
    of several characters for one. *)
Theorem sanitized_title_has_no_tag clock title :
  Validation.validateTitle (VStr title) = None →
  let sanitized := Validation.sanitizeText (Demo.host clock) (VStr title) in
  3 <= JS.length (trim title) <= 100 ∧
  occurs "<" sanitized = false ∧
  occurs ">" sanitized = false ∧
  JS.length sanitized <= JS.length (Demo.escapeHtml title).
Proof.
  intros Hv sanitized. subst sanitized. unfold Validation.sanitizeText.
  cbn [sanitizeHtml Demo.host Demo.sanitizeHtml].
  destruct (escapeHtml_no_bracket title) as [Hlt Hgt].
  split; [|split_and!].
  - unfold Validation.validateTitle in Hv.
    destruct (Z.ltb_spec (JS.length (trim title)) 3); [done|].
    destruct (Z.ltb_spec 100 (JS.length (trim title))); [done|]. lia.
  - by apply trim_occurs.
  - by apply trim_occurs.
  - apply trim_length.
Qed.

(** A title in bold. *)
Lemma sanitized_title_has_no_tag_witness :
  occurs "<" (Validation.sanitizeText Demo.ticking (VStr " <b>Do taxes</b> ")) = false.
Proof.
  destruct (sanitized_title_has_no_tag (λ n, Demo.noon + Z.of_nat n)
              " <b>Do taxes</b> ")
    as (_ & H & _).
  - reflexivity.
  - exact H.
Defined.

(** C4, counterexample.  A title of 99 characters, nine times
    [<b>bold</b>], passes the title validator.  Each of its 27 angle
    brackets is escaped to an entity of four characters: the sanitized
    title has 207 characters, and the title validator would turn it
    down. *)
Lemma sanitized_title_exceeds_bound :
  let bold := "<b>bold</b>" in
  let title := bold +:+ bold +:+ bold +:+ bold +:+ bold +:+ bold +:+ bold +:+ bold +:+ bold in
  let sanitized := Validation.sanitizeText Demo.ticking (VStr title) in
  JS.length title = 99 ∧
  Validation.validateTitle (VStr title) = None ∧
  JS.length sanitized = 207 ∧
  Validation.validateTitle (VStr sanitized)
  = Some {| field := "title"; message := "Title must not exceed 100 characters" |}.
Proof. vm_compute. done. Qed.


(** * Further properties of the code *)

(** ** The store on its own *)

(** X1.  [createTask] followed by [getTaskById] on the identifier drawn
    gives the task that [createTask] returned, whose id field is that
    identifier; the tasks under other identifiers stay as they were; and
    the count grows by one when the identifier was free.  The store does
    not look whether it was: a task already kept under the identifier is
    replaced and the count stays.  (On data whose dueDate cannot be
    converted to a primitive value [createTask] returns no task: it throws,
    with the identifier drawn and nothing stored.) *)
Theorem create_then_get host taskData w :
  let created := TaskStore.createTask host taskData w in
  let id := randomUUID host (uuidsDrawn w) in
  if conversion_throws (get taskData "dueDate") then
    created.1 = Throw conversion_error ∧
    tasks created.2 = tasks w ∧
    uuidsDrawn created.2 = S (uuidsDrawn w)
  else
    ∃ task,
      created.1 = Return task ∧
      get task "id" = VStr id ∧
      TaskStore.getTaskById id created.2 = (Some task, created.2) ∧
      (∀ id', id' ≠ id → tasks created.2 !! id' = tasks w !! id') ∧
      (TaskStore.getTaskCount created.2).1
      = (TaskStore.getTaskCount w).1
        + match tasks w !! id with Some _ => 0 | None => 1 end.
Proof.
  intros created id.
  destruct (conversion_throws (get taskData "dueDate")) eqn:Hconv.
  { subst created. by rewrite createTask_throws. }
  destruct (conversion_returns host _ Hconv) as [date Hdate].
  destruct (createTask_run host taskData w date Hdate) as (task & Hrun & Hid & _).
  fold created id in Hrun, Hid. exists task.
  unfold TaskStore.getTaskById, TaskStore.getTaskCount. cbn [fst].
  rewrite Hrun. cbn [fst snd tasks]. split_and!.
  - done.
  - done.
  - by rewrite lookup_insert_eq.
  - intros id' Hne. by rewrite lookup_insert_ne.
  - rewrite map_size_insert. destruct (tasks w !! id); simpl; lia.
Qed.

(** X2.  [deleteTask] answers true exactly when a task was kept under the
    identifier; afterwards [getTaskById] finds nothing there, the tasks
    under other identifiers stay as they were, the count has gone down by
    one exactly when the answer was true, and deleting again answers false
    and changes nothing. *)
Theorem delete_then_get id w :
  let deleted := TaskStore.deleteTask id w in
  (deleted.1 = true ↔ is_Some (tasks w !! id)) ∧
  TaskStore.getTaskById id deleted.2 = (None, deleted.2) ∧
  (∀ id', id' ≠ id → tasks deleted.2 !! id' = tasks w !! id') ∧
  (TaskStore.getTaskCount deleted.2).1
  = (TaskStore.getTaskCount w).1 - (if deleted.1 then 1 else 0) ∧
  TaskStore.deleteTask id deleted.2 = (false, deleted.2).
Proof.
  intros deleted. subst deleted.
  unfold TaskStore.deleteTask, TaskStore.getTaskById, TaskStore.getTaskCount.
  cbn [fst snd tasks clockReads uuidsDrawn]. split_and!.
  - apply bool_decide_eq_true.
  - by rewrite lookup_delete_eq.
  - intros id' Hne. by rewrite lookup_delete_ne.
  - rewrite map_size_delete.
    destruct (tasks w !! id) as [task|] eqn:E.
    + rewrite bool_decide_eq_true_2 by eauto.
      assert (size (tasks w) ≠ 0%nat) by (apply map_size_ne_0_lookup; eauto).
      simpl. lia.
    + rewrite bool_decide_eq_false_2 by (by intros [? ?]). simpl. lia.
  - rewrite lookup_delete_eq, delete_delete_eq.
    by rewrite bool_decide_eq_false_2 by (by intros [? ?]).
Qed.

(** X3.  In the record that [updateTask] returns for a stored task, every
    property the payload carries, other than dueDate and updatedAt, has the
    payload's value; a dueDate the payload defines is stored as the [Date]
    built from it.  The tasks under other identifiers, the count and the
    identifiers drawn stay as they were.  (On a payload whose dueDate
    cannot be converted to a primitive value [updateTask] returns no
    record: it throws, and the state stays as it was.) *)
Theorem update_takes_payload_fields host w id existingTask taskData :
  tasks w !! id = Some existingTask →
  let result := TaskStore.updateTask host id taskData w in
  if conversion_throws (get taskData "dueDate") then
    result = (Throw conversion_error, w)
  else
    ∃ updatedTask,
      result.1 = Return (Some updatedTask) ∧
      (∀ k v, k ≠ "dueDate" → k ≠ "updatedAt" → taskData !! k = Some v →
              get updatedTask k = v) ∧
      (isDefined (get taskData "dueDate") = true →
       ∃ date, new_Date host (get taskData "dueDate") = Return date ∧
               get updatedTask "dueDate" = VDate date) ∧
      (∀ id', id' ≠ id → tasks result.2 !! id' = tasks w !! id') ∧
      (TaskStore.getTaskCount result.2).1 = (TaskStore.getTaskCount w).1 ∧
      uuidsDrawn result.2 = uuidsDrawn w.
Proof.
  intros Hid result. subst result.
  destruct (conversion_throws (get taskData "dueDate")) eqn:Hconv.
  { by apply updateTask_throws with existingTask. }
  destruct (conversion_returns host _ Hconv) as [date Hdate].
  pose proof (updateTask_run host id taskData existingTask w date Hid Hdate) as Hrun.
  cbv zeta in Hrun. rewrite Hrun. unfold TaskStore.getTaskCount.
  cbn [fst snd tasks uuidsDrawn].
  eexists. split; [done|]. split_and!.
  - intros k v H1 H2 Hk. rewrite !get_insert_ne by done.
    by apply get_spread_present.
  - intros Hd. exists date. split; [done|].
    rewrite get_insert_ne by done. by rewrite get_insert_eq, Hd.
  - intros id' Hne. by rewrite lookup_insert_ne.
  - by rewrite map_size_insert_Some by eauto.
  - done.
Qed.

(** A task created and then given the priority high. *)
Lemma update_takes_payload_fields_witness :
  let w1 := (TaskStore.createTask Demo.ticking (obj [("title", VStr "Do taxes")])
               initialWorld).2 in
  ∃ updatedTask,
    (TaskStore.updateTask Demo.ticking Demo.uuid
       (obj [("priority", VStr "high")]) w1).1 = Return (Some updatedTask) ∧
    get updatedTask "priority" = VStr "high".
Proof.
  intros w1.
  destruct (update_takes_payload_fields Demo.ticking w1 Demo.uuid
              (default ∅ (tasks w1 !! Demo.uuid))
              (obj [("priority", VStr "high")]))
    as (updatedTask & Hres & Htake & _).
  - reflexivity.
  - exists updatedTask. split; [exact Hres|].
    apply Htake; [discriminate|discriminate|reflexivity].
Defined.

(** X4.  [getAllTasks] changes nothing, returns as many tasks as
    [getTaskCount] counts, and returns exactly the tasks that
    [getTaskById] finds under some identifier. *)
Theorem getAllTasks_lists_the_store w :
  let all := (TaskStore.getAllTasks w).1 in
  (TaskStore.getAllTasks w).2 = w ∧
  Z.of_nat (List.length all) = (TaskStore.getTaskCount w).1 ∧
  ∀ task, task ∈ all ↔ ∃ id, (TaskStore.getTaskById id w).1 = Some task.
Proof.
  intros all. subst all.
  unfold TaskStore.getAllTasks, TaskStore.getTaskCount, TaskStore.getTaskById.
  cbn [fst snd]. split_and!.
  - done.
  - by rewrite length_fmap, length_map_to_list.
  - intros task. rewrite list_elem_of_fmap. split.
    + intros ([id t] & -> & Hin). exists id. by apply elem_of_map_to_list.
    + intros (id & Hid). exists (id, task). split; [done|].
      by apply elem_of_map_to_list.
Qed.

(** X5.  On a clock that does not run backwards, a created task has
    createdAt at or before updatedAt (they are two successive readings),
    and an update that comes later and whose payload carries no createdAt
    keeps createdAt and moves updatedAt to a reading that is not earlier
    (an update that returns a record, that is: one whose payload has a
    dueDate that cannot be converted throws). *)
Theorem created_before_updated host taskData w w2 payload task :
  (∀ i j, (i ≤ j)%nat → clock host i <= clock host j) →
  let created := TaskStore.createTask host taskData w in
  let id := randomUUID host (uuidsDrawn w) in
  created.1 = Return task →
  tasks w2 !! id = Some task →
  (clockReads created.2 ≤ clockReads w2)%nat →
  payload !! "createdAt" = None →
  ∃ c u,
    get task "createdAt" = VDate (Some c) ∧
    get task "updatedAt" = VDate (Some u) ∧
    c <= u ∧
    if conversion_throws (get payload "dueDate") then
      TaskStore.updateTask host id payload w2 = (Throw conversion_error, w2)
    else
      ∃ u' updatedTask,
        (TaskStore.updateTask host id payload w2).1 = Return (Some updatedTask) ∧
        get updatedTask "createdAt" = VDate (Some c) ∧
        get updatedTask "updatedAt" = VDate (Some u') ∧
        u <= u'.
Proof.
  intros Hmono created id Hret Hstored Hlater Habs.
  assert (conversion_throws (get taskData "dueDate") = false) as Hconv0.
  { destruct (conversion_throws (get taskData "dueDate")) eqn:E; [|done].
    subst created. rewrite createTask_throws in Hret by done. discriminate. }
  destruct (conversion_returns host _ Hconv0) as [date0 Hdate0].
  destruct (createTask_run host taskData w date0 Hdate0)
    as (task' & Hrun & _ & _ & _ & _ & _ & _ & Hc & Hu).
  fold created in Hrun. rewrite Hrun in Hret, Hlater.
  cbn [fst snd clockReads] in Hret, Hlater. injection Hret as ->.
  eexists _, _. split_and!; [exact Hc|exact Hu|apply Hmono; lia|].
  destruct (conversion_throws (get payload "dueDate")) eqn:Hconv.
  { by apply updateTask_throws with task. }
  destruct (updateTask_absent host id payload task w2 "createdAt"
              Hstored Hconv ltac:(done) Habs) as (updatedTask & Hres & Hkeep).
  destruct (conversion_returns host _ Hconv) as [date Hdate].
  pose proof (updateTask_run host id payload task w2 date Hstored Hdate) as Hrun2.
  cbv zeta in Hrun2. rewrite Hrun2 in Hres |- *. cbn [fst] in Hres |- *.
  injection Hres as <-.
  eexists _, _. split_and!; [reflexivity| | |].
  - by rewrite Hkeep.
  - apply get_insert_eq.
  - apply Hmono. lia.
Qed.

(** The example task, created and completed on the ticking clock. *)
Lemma created_before_updated_witness :
  let w1 := (TaskStore.createTask Demo.ticking (obj [("title", VStr "Do taxes")])
               initialWorld).2 in
  ∃ updatedTask,
    (TaskStore.updateTask Demo.ticking Demo.uuid
       (obj [("status", VStr "completed")]) w1).1 = Return (Some updatedTask) ∧
    get updatedTask "createdAt" = VDate (Some Demo.noon).
Proof.
  intros w1.
  destruct (created_before_updated Demo.ticking (obj [("title", VStr "Do taxes")])
              initialWorld w1 (obj [("status", VStr "completed")])
              (default ∅ (tasks w1 !! Demo.uuid)))
    as (c & u & Hc & _ & _ & u' & updatedTask & Hres & Hkept & _).
  - intros i j Hij. cbn [clock Demo.ticking Demo.host]. lia.
  - reflexivity.
  - reflexivity.
  - vm_compute. lia.
  - reflexivity.
  - exists updatedTask. split; [exact Hres|].
    rewrite Hkept, <- Hc. reflexivity.
Defined.

(** ** Trimming *)

Lemma trimEnd_idem s : trimEnd (trimEnd s) = trimEnd s.
Proof.
  induction s as [|c s IH]; [done|]. cbn [trimEnd].
  destruct (trimEnd s) as [|c' t] eqn:E.
  - destruct (isWhiteSpace c) eqn:Ec; [done|]. cbn [trimEnd]. by rewrite Ec.
  - cbn [trimEnd] in *. by rewrite IH.
Qed.

Lemma trimEnd_head c s c' t :
  trimEnd (String c s) = String c' t → c' = c.
Proof.
  cbn [trimEnd]. destruct (trimEnd s); [destruct (isWhiteSpace c)|]; congruence.
Qed.

Lemma trimStart_head s c t :
  trimStart s = String c t → isWhiteSpace c = false.
Proof.
  induction s as [|c' s IH]; [done|]. cbn [trimStart].
  destruct (isWhiteSpace c') eqn:E; [done|]. by intros [= <- <-].
Qed.

(** The first character left by [trim] is no white space, and trimming
    again changes nothing. *)
Lemma trim_head s c t : trim s = String c t → isWhiteSpace c = false.
Proof.
  unfold trim. intros H.
  destruct (trimStart s) as [|c0 s0] eqn:E; [done|].
  apply trimEnd_head in H as ->. by apply (trimStart_head s c0 s0).
Qed.

Lemma trim_idem s : trim (trim s) = trim s.
Proof.
  unfold trim at 1.
  destruct (trim s) as [|c t] eqn:E; [done|].
  pose proof (trim_head s c t E) as Hc.
  cbn [trimStart]. rewrite Hc, <- E. unfold trim. apply trimEnd_idem.
Qed.

Lemma trimEnd_last_char s c :
  last_char (trimEnd s) = Some c → isWhiteSpace c = false.
Proof.
  induction s as [|c' s IH]; [done|]. cbn [trimEnd].
  destruct (trimEnd s) as [|c'' t] eqn:E.
  - destruct (isWhiteSpace c') eqn:Ec; [done|]. by intros [= <-].
  - intros H. apply IH. exact H.
Qed.

(** ** The field validators *)

(** X6.  The title validator accepts exactly the strings whose trimmed
    length is between 3 and 100; absent, null and every value that is not a
    string are turned down.  White space around a title does not matter:
    a string and its trimmed form get the same verdict. *)
Theorem validateTitle_accepts v :
  (Validation.validateTitle v = None ↔
   ∃ s, v = VStr s ∧ 3 <= JS.length (trim s) <= 100) ∧
  ∀ s, Validation.validateTitle (VStr (trim s)) = Validation.validateTitle (VStr s).
Proof.
  unfold Validation.validateTitle. split; [split|].
  - destruct v as [| | | |s| |]; try done. intros H. exists s. split; [done|].
    destruct (Z.ltb_spec (JS.length (trim s)) 3); [done|].
    destruct (Z.ltb_spec 100 (JS.length (trim s))); [done|]. lia.
  - intros (s & -> & Hlo & Hhi).
    destruct (Z.ltb_spec (JS.length (trim s)) 3); [lia|].
    destruct (Z.ltb_spec 100 (JS.length (trim s))); [lia|done].
  - intros s. by rewrite trim_idem.
Qed.

(** X7.  The description validator accepts exactly absent, null and the
    strings of at most 500 characters, counted without trimming. *)
Theorem validateDescription_accepts v :
  Validation.validateDescription v = None ↔
  isNullish v = true ∨ ∃ s, v = VStr s ∧ JS.length s <= 500.
Proof.
  unfold Validation.validateDescription. split.
  - destruct v as [| | | |s| |]; try done; try (by left). intros H. right.
    exists s. split; [done|].
    destruct (Z.ltb_spec 500 (JS.length s)); [done|lia].
  - intros [H|(s & -> & H)]; [by destruct v|].
    destruct (Z.ltb_spec 500 (JS.length s)); [lia|done].
Qed.

Lemma includes_values {E} (value : E → string) (all : list E) v :
  includes (value <$> all) v = true ↔ ∃ e, e ∈ all ∧ v = VStr (value e).
Proof.
  destruct v as [| | | |s| |]; simpl;
    try (split; [done|by intros (? & ? & ?)]).
  rewrite bool_decide_eq_true, list_elem_of_fmap. split.
  - intros (e & -> & He). eauto.
  - intros (e & He & [= ->]). eauto.
Qed.

(** X8.  The status validator accepts exactly absent, null and the string
    values of the [TaskStatus] enumeration, the priority validator exactly
    absent, null and the string values of [TaskPriority]. *)
Theorem validateStatus_accepts v :
  (Validation.validateStatus v = None ↔
   isNullish v = true ∨ ∃ s : TaskStatus, v = VStr (TaskStatus_value s)) ∧
  (Validation.validatePriority v = None ↔
   isNullish v = true ∨ ∃ p : TaskPriority, v = VStr (TaskPriority_value p)).
Proof.
  unfold Validation.validateStatus, Validation.validatePriority,
    TaskStatus_values, TaskPriority_values.
  split; (destruct (isNullish v) eqn:Hn; [split; [by left|done]|]);
    destruct (includes _ v) eqn:Hi; simpl.
  - apply includes_values in Hi as (s & _ & ->). split; [eauto|done].
  - split; [done|]. intros [?|(s & ->)]; [done|].
    assert (includes (TaskStatus_value <$> [PENDING; IN_PROGRESS; COMPLETED; BLOCKED])
              (VStr (TaskStatus_value s)) = true) as Hin; [|congruence].
    apply includes_values. exists s. split; [|done]. destruct s; set_solver.
  - apply includes_values in Hi as (p & _ & ->). split; [eauto|done].
  - split; [done|]. intros [?|(p & ->)]; [done|].
    assert (includes (TaskPriority_value <$> [LOW; MEDIUM; HIGH; CRITICAL])
              (VStr (TaskPriority_value p)) = true) as Hin; [|congruence].
    apply includes_values. exists p. split; [|done]. destruct p; set_solver.
Qed.

(** X9.  Whatever error a field validator returns is labelled with the
    validator's own field. *)
Theorem validators_label_their_field host v w e :
  (Validation.validateTitle v = Some e → field e = "title") ∧
  (Validation.validateDescription v = Some e → field e = "description") ∧
  (Validation.validateStatus v = Some e → field e = "status") ∧
  (Validation.validatePriority v = Some e → field e = "priority") ∧
  ((Validation.validateDueDate host v w).1 = Return (Some e) →
   field e = "dueDate").
Proof.
  split_and!.
  - unfold Validation.validateTitle. intros H.
    repeat case_match; try discriminate; by injection H as <-.
  - unfold Validation.validateDescription. intros H.
    repeat case_match; try discriminate; by injection H as <-.
  - unfold Validation.validateStatus. intros H.
    repeat case_match; try discriminate; by injection H as <-.
  - unfold Validation.validatePriority. intros H.
    repeat case_match; try discriminate; by injection H as <-.
  - destruct (isNullish v) eqn:Hn.
    { by rewrite validateDueDate_nullish. }
    destruct (new_Date host v) as [[d|]|error] eqn:Hd.
    + rewrite (validateDueDate_valid host v d w Hn Hd). intros H.
      repeat case_match; try discriminate; by injection H as <-.
    + rewrite (validateDueDate_invalid host v w Hn Hd). intros H.
      by injection H as <-.
    + rewrite validateDueDate_throws; [done|].
      by destruct v as [| | | | |[]|].
Qed.

(** X10.  Text that [sanitizeText] returns is trimmed: trimming it again
    changes nothing, and neither its first nor its last character is white
    space, whatever [sanitize-html] returned. *)
Theorem sanitizeText_is_trimmed host text :
  let s := Validation.sanitizeText host text in
  trim s = s ∧
  (∀ c t, s = String c t → isWhiteSpace c = false) ∧
  (∀ c, last_char s = Some c → isWhiteSpace c = false).
Proof.
  intros s. subst s. unfold Validation.sanitizeText. split_and!.
  - apply trim_idem.
  - intros c t. apply trim_head.
  - intros c. unfold trim. apply trimEnd_last_char.
Qed.

(** ** The identifier pattern *)

Lemma regex_test_Forall2 regex s :
  Validation.regex_test regex s = true ↔
  Forall2 (λ (cls : ascii → bool) c, cls c = true) regex (String.list_ascii_of_string s).
Proof.
  revert s. induction regex as [|cls regex IH]; intros [|c s]; cbn.
  - split; [constructor|done].
  - split; [done|]. intros H. inversion H.
  - split; [done|]. intros H. inversion H.
  - rewrite andb_true_iff, IH. split.
    + intros [H1 H2]. by constructor.
    + intros H. by inversion H.
Qed.

Lemma uuidRegex_hex i cls c :
  Validation.uuidRegex !! i = Some cls → cls c = true →
  i ≠ 8%nat → i ≠ 13%nat → i ≠ 18%nat → i ≠ 23%nat →
  Validation.hex c = true.
Proof.
  intros Hi Hc H8 H13 H18 H23.
  assert (∀ c, Validation.lit "4" c = true → Validation.hex c = true) as H4.
  { intros c' H. apply Ascii.eqb_eq in H. by subst c'. }
  assert (∀ c, Validation.variant c = true → Validation.hex c = true) as Hv.
  { intros c'. unfold Validation.variant. repeat case_match; done. }
  do 36 (destruct i as [|i]; [cbn in Hi; injection Hi as <-; by auto|]).
  done.
Qed.

(** X11.  An identifier that [validateTaskId] lets through has 36
    characters: hyphens at positions 8, 13, 18 and 23, the version digit 4
    at position 14, and hexadecimal digits of either case everywhere else;
    the request is handed on as it came and nothing is changed. *)
Theorem validateTaskId_passes_uuid_shape req w req' w' :
  Validation.validateTaskId req w = (Next req', w') →
  let id := String.list_ascii_of_string (params_id req) in
  req' = req ∧ w' = w ∧
  List.length id = 36%nat ∧
  id !! 8%nat = Some "-"%char ∧ id !! 13%nat = Some "-"%char ∧
  id !! 18%nat = Some "-"%char ∧ id !! 23%nat = Some "-"%char ∧
  id !! 14%nat = Some "4"%char ∧
  ∀ i c, id !! i = Some c →
         i ≠ 8%nat → i ≠ 13%nat → i ≠ 18%nat → i ≠ 23%nat →
         Validation.hex c = true.
Proof.
  intros H id.
  destruct (Validation.regex_test Validation.uuidRegex (params_id req)) eqn:Hre.
  2: { destruct (validateTaskId_invalid req w Hre) as (e & _ & He). congruence. }
  rewrite (validateTaskId_valid req w Hre) in H. injection H as <- <-.
  apply regex_test_Forall2 in Hre. fold id in Hre.
  pose proof (Forall2_length _ _ _ Hre) as Hlen.
  assert (∀ i (x : ascii), Validation.uuidRegex !! i = Some (Validation.lit x) →
          id !! i = Some x) as Hlit.
  { intros i x Hi.
    destruct (Forall2_lookup_l _ _ _ _ _ Hre Hi) as (c & Hc & Hx).
    apply Ascii.eqb_eq in Hx. by subst c. }
  split_and!; try done; try (by apply Hlit).
  intros i c Hi.
  destruct (Forall2_lookup_r _ _ _ _ _ Hre Hi) as (cls & Hcls & Hc).
  by apply (uuidRegex_hex i cls c).
Qed.

(** The identifier of the examples, in upper case. *)
Lemma validateTaskId_passes_uuid_shape_witness :
  List.length (String.list_ascii_of_string "F9312E7D-1D33-43E2-9145-3BAFAC1199DD") = 36%nat.
Proof.
  pose (req := {| params_id := "F9312E7D-1D33-43E2-9145-3BAFAC1199DD"; body := ∅ |}).
  destruct (validateTaskId_passes_uuid_shape req initialWorld req initialWorld)
    as (_ & _ & H & _); [reflexivity|exact H].
Defined.

(** ** The validation middleware as a whole *)

Lemma validateDueDate_world host v w :
  let w' := (Validation.validateDueDate host v w).2 in
  w' = w ∨ w' = tick w ∨ w' = tick (tick w).
Proof.
  intros w'. subst w'. destruct (isNullish v) eqn:Hn.
  { rewrite validateDueDate_nullish by done. by left. }
  destruct (new_Date host v) as [[d|]|error] eqn:Hd.
  - rewrite (validateDueDate_valid host v d w Hn Hd).
    repeat case_match; cbn [snd]; auto.
  - rewrite (validateDueDate_invalid host v w Hn Hd). by left.
  - rewrite validateDueDate_throws; [by left|].
    by destruct v as [| | | | |[]|].
Qed.

Lemma world_after_reads w w' :
  w' = w ∨ w' = tick w ∨ w' = tick (tick w) →
  tasks w' = tasks w ∧ uuidsDrawn w' = uuidsDrawn w ∧
  (clockReads w ≤ clockReads w' ≤ clockReads w + 2)%nat.
Proof. intros [->|[->| ->]]; cbn; split_and!; done || lia. Qed.

Lemma create_validation_cases host req w :
  let v := Validation.validateCreateTask host req w in
  tasks v.2 = tasks w ∧ uuidsDrawn v.2 = uuidsDrawn w ∧
  (clockReads w ≤ clockReads v.2 ≤ clockReads w + 2)%nat ∧
  if conversion_throws (get (body req) "dueDate") then
    v = (NextError conversion_error, w)
  else
    (∃ req', v.1 = Next req' ∧ params_id req' = params_id req) ∨
    (∃ e errors, v.1 = NextError (ValidationError (e :: errors))).
Proof.
  intros v. subst v.
  destruct (conversion_throws (get (body req) "dueDate")) eqn:Hconv.
  { destruct (run_post_throws host req w Hconv) as [-> _]. cbn [snd].
    split_and!; done || lia. }
  pose proof (validateCreateTask_outcome host req w) as Hout.
  cbv zeta in Hout.
  destruct (world_after_reads w _
              (validateDueDate_world host (get (body req) "dueDate") w))
    as (Ht & Hu & Hc).
  destruct (validateDueDate_returns host _ w Hconv) as [e He].
  rewrite He in Hout. destruct Hout as [req' Hout].
  destruct (collect _) as [|e' errors].
  - destruct (validateCreateTask_Next host req w _ _ Hout)
      as (_ & _ & _ & _ & _ & Hid' & _).
    rewrite Hout. cbn [fst snd].
    split; [done|]. split; [done|]. split; [done|]. left. eauto.
  - rewrite Hout. cbn [fst snd].
    split; [done|]. split; [done|]. split; [done|]. right. eauto.
Qed.

Lemma update_validation_cases host req w :
  let v := Validation.validateUpdateTask host req w in
  tasks v.2 = tasks w ∧ uuidsDrawn v.2 = uuidsDrawn w ∧
  (clockReads w ≤ clockReads v.2 ≤ clockReads w + 2)%nat ∧
  if conversion_throws (get (body req) "dueDate") then
    v = (NextError conversion_error, w)
  else
    (∃ req', v.1 = Next req' ∧ params_id req' = params_id req) ∨
    (∃ e errors, v.1 = NextError (ValidationError (e :: errors))).
Proof.
  intros v. subst v.
  destruct (conversion_throws (get (body req) "dueDate")) eqn:Hconv.
  { rewrite (validateUpdateTask_throws host req w Hconv). cbn [snd].
    split_and!; done || lia. }
  pose proof (validateUpdateTask_outcome host req w) as Hout.
  cbv zeta in Hout. destruct (forallb _ _).
  { rewrite Hout. cbn [fst snd]. split_and!; [done|done|lia|lia|]. right. eauto. }
  assert (∃ e w', (if isDefined (get (body req) "dueDate")
                   then Validation.validateDueDate host (get (body req) "dueDate") w
                   else (Return None, w)) = (Return e, w') ∧
                  tasks w' = tasks w ∧ uuidsDrawn w' = uuidsDrawn w ∧
                  (clockReads w ≤ clockReads w' ≤ clockReads w + 2)%nat)
    as (e & w' & Hdue & Ht & Hu & Hc).
  { destruct (isDefined (get (body req) "dueDate")).
    - destruct (validateDueDate_returns host _ w Hconv) as [e He].
      destruct (world_after_reads w _
                  (validateDueDate_world host (get (body req) "dueDate") w))
        as (Ht & Hu & Hc).
      destruct (Validation.validateDueDate host (get (body req) "dueDate") w)
        as [c w']. cbn [fst snd] in *. subst c. by exists e, w'.
    - exists None, w. split_and!; done || lia. }
  rewrite Hdue in Hout. cbn [fst snd] in Hout. destruct Hout as [req' Hout].
  destruct (collect _) as [|e' errors].
  - destruct (validateUpdateTask_Next host req w _ _ Hout)
      as (_ & _ & _ & Hid' & _).
    rewrite Hout. cbn [fst snd].
    split; [done|]. split; [done|]. split; [done|]. left. eauto.
  - rewrite Hout. cbn [fst snd].
    split; [done|]. split; [done|]. split; [done|]. right. eauto.
Qed.

(** X12.  Each of the three validation middlewares leaves the store and
    the identifiers drawn as they are and reads the clock at most twice.
    It never answers the request itself: it hands the request on, with
    the same id parameter; or it raises a validation failure that carries
    at least one error, which the error handler answers with 400 and that
    list; or, on a payload whose dueDate cannot be converted to a
    primitive value, it hands on the exception of the conversion, which
    the error handler answers with 500 and no list. *)
Theorem validation_middleware_contract host h req w :
  h ∈ [Validation.validateTaskId; Validation.validateCreateTask host;
       Validation.validateUpdateTask host] →
  let r := h req w in
  tasks r.2 = tasks w ∧ uuidsDrawn r.2 = uuidsDrawn w ∧
  (clockReads w ≤ clockReads r.2 ≤ clockReads w + 2)%nat ∧
  ((∃ req', r.1 = Next req' ∧ params_id req' = params_id req) ∨
   (∃ e errors,
      r.1 = NextError (ValidationError (e :: errors)) ∧
      errorHandler (ValidationError (e :: errors))
      = {| status := 400; json := BValidation "Validation failed" (e :: errors) |}) ∨
   (conversion_throws (get (body req) "dueDate") = true ∧
    r = (NextError conversion_error, w) ∧
    errorHandler conversion_error
    = {| status := 500;
         json := BError "Cannot convert object to primitive value" 500 |})).
Proof.
  intros Hh r. subst r.
  apply elem_of_cons in Hh as [->|Hh]; [|apply elem_of_cons in Hh as [->|Hh]];
    [| |apply list_elem_of_singleton in Hh as ->].
  - destruct (Validation.regex_test Validation.uuidRegex (params_id req)) eqn:Hre.
    + rewrite (validateTaskId_valid req w Hre). cbn [fst snd].
      split_and!; [done|done|lia|lia|]. left. eauto.
    + destruct (validateTaskId_invalid req w Hre) as (e & _ & ->). cbn [fst snd].
      split_and!; [done|done|lia|lia|]. right. left. by exists e, [].
  - destruct (create_validation_cases host req w) as (Ht & Hu & Hc & Hcases).
    split; [done|]. split; [done|]. split; [done|].
    destruct (conversion_throws (get (body req) "dueDate")).
    + right. right. done.
    + destruct Hcases as [?|(e & errors & He)]; [by left|].
      right. left. by exists e, errors.
  - destruct (update_validation_cases host req w) as (Ht & Hu & Hc & Hcases).
    split; [done|]. split; [done|]. split; [done|].
    destruct (conversion_throws (get (body req) "dueDate")).
    + right. right. done.
    + destruct Hcases as [?|(e & errors & He)]; [by left|].
      right. left. by exists e, errors.
Qed.

(** The update middleware on a payload with a bad status. *)
Lemma validation_middleware_contract_witness :
  let req := {| params_id := Demo.uuid; body := obj [("status", VStr "done")] |} in
  tasks (Validation.validateUpdateTask Demo.ticking req initialWorld).2 = ∅.
Proof.
  intros req.
  destruct (validation_middleware_contract Demo.ticking
              (Validation.validateUpdateTask Demo.ticking) req initialWorld)
    as (H & _).
  - apply list_elem_of_further, list_elem_of_further, list_elem_of_here.
  - exact H.
Defined.

(** ** The routes *)

Lemma run_rejected_id rest req w :
  Validation.regex_test Validation.uuidRegex (params_id req) = false →
  status (run (Validation.validateTaskId :: rest) req w).1 = 400 ∧
  (run (Validation.validateTaskId :: rest) req w).2 = w.
Proof.
  intros H. destruct (validateTaskId_invalid req w H) as (e & _ & Hv).
  cbn [run]. unfold bind. by rewrite Hv.
Qed.

Lemma run_get_one req w :
  Validation.regex_test Validation.uuidRegex (params_id req) = true →
  run Router.get_one req w
  = (match tasks w !! params_id req with
     | Some task => {| status := 200; json := BTask None task |}
     | None => Controller.not_found (params_id req)
     end, w).
Proof.
  intros H. unfold Router.get_one. cbn [run]. unfold bind at 1.
  rewrite (validateTaskId_valid req w H).
  unfold Controller.getTaskById, TaskStore.getTaskById, bind, ret.
  rewrite try_catch_run, bindE_run. unfold lift, retE.
  by destruct (tasks w !! params_id req).
Qed.

Lemma run_delete req w :
  Validation.regex_test Validation.uuidRegex (params_id req) = true →
  run Router.delete req w
  = (match tasks w !! params_id req with
     | Some _ => {| status := 200; json := BMessage true "Task deleted successfully" |}
     | None => Controller.not_found (params_id req)
     end,
     {| tasks := delete (params_id req) (tasks w);
        clockReads := clockReads w; uuidsDrawn := uuidsDrawn w |}).
Proof.
  intros H. unfold Router.delete. cbn [run]. unfold bind at 1.
  rewrite (validateTaskId_valid req w H).
  unfold Controller.deleteTask, TaskStore.deleteTask, bind, ret.
  rewrite try_catch_run, bindE_run. unfold lift, retE.
  destruct (tasks w !! params_id req) eqn:E.
  - by rewrite bool_decide_eq_true_2 by eauto.
  - by rewrite bool_decide_eq_false_2 by (by intros [? ?]).
Qed.

(** X13.  The get-one route changes nothing.  It answers 200, with the
    stored task, exactly when the id is well formed and a task is stored
    under it; 404, naming the id, exactly when the id is well formed and
    no task is stored under it; and 400 exactly when the id is not well
    formed. *)
Theorem get_one_answers req w :
  let r := run Router.get_one req w in
  let id := params_id req in
  let wellFormed := Validation.regex_test Validation.uuidRegex id in
  r.2 = w ∧
  (status r.1 = 200 ↔ wellFormed = true ∧ is_Some (tasks w !! id)) ∧
  (status r.1 = 404 ↔ wellFormed = true ∧ tasks w !! id = None) ∧
  (status r.1 = 400 ↔ wellFormed = false) ∧
  (∀ task, status r.1 = 200 → tasks w !! id = Some task → json r.1 = BTask None task) ∧
  (status r.1 = 404 → r.1 = Controller.not_found id).
Proof.
  intros r id wellFormed. subst r wellFormed.
  destruct (Validation.regex_test Validation.uuidRegex id) eqn:Hre.
  - rewrite (run_get_one req w Hre). fold id.
    destruct (tasks w !! id) as [task|] eqn:E; cbn [fst snd status json].
    + split; [done|]. split; [split; [eauto|done]|].
      split; [split; [done|by intros [? ?]]|].
      split; [done|]. split; [|done]. by intros task' _ [= ->].
    + split; [done|]. split; [split; [done|by intros [_ [? ?]]]|].
      split; [done|]. split; [done|]. done.
  - destruct (run_rejected_id [Controller.getTaskById] req w Hre) as [Hs Hw].
    change (run Router.get_one req w) with
      (run [Validation.validateTaskId; Controller.getTaskById] req w).
    rewrite Hs, Hw. split_and!; try done; split; (done || by intros [? ?]).
Qed.

(** X14.  The delete route reads no clock and draws no identifier.  It
    answers 200 exactly when the id is well formed and a task is stored
    under it, and then that task, and nothing else, is gone; 404 exactly
    when the id is well formed and no task is stored under it; 400 exactly
    when the id is not well formed; and the store is as it was unless the
    answer is 200.  Whatever the answer, a get or a second delete with the
    same id afterwards is not answered with 200. *)
Theorem delete_answers req w :
  let r := run Router.delete req w in
  let id := params_id req in
  let wellFormed := Validation.regex_test Validation.uuidRegex id in
  clockReads r.2 = clockReads w ∧ uuidsDrawn r.2 = uuidsDrawn w ∧
  (status r.1 = 200 ↔ wellFormed = true ∧ is_Some (tasks w !! id)) ∧
  (status r.1 = 404 ↔ wellFormed = true ∧ tasks w !! id = None) ∧
  (status r.1 = 400 ↔ wellFormed = false) ∧
  (status r.1 = 200 → tasks r.2 = delete id (tasks w)) ∧
  (status r.1 ≠ 200 → tasks r.2 = tasks w) ∧
  status (run Router.get_one req r.2).1 ≠ 200 ∧
  status (run Router.delete req r.2).1 ≠ 200.
Proof.
  intros r id wellFormed. subst r wellFormed.
  destruct (Validation.regex_test Validation.uuidRegex id) eqn:Hre.
  - rewrite (run_delete req w Hre). fold id. cbn [fst snd].
    rewrite (run_get_one req _ Hre), (run_delete req _ Hre). fold id.
    cbn [fst snd tasks clockReads uuidsDrawn]. rewrite lookup_delete_eq.
    destruct (tasks w !! id) as [task|] eqn:E; cbn [status].
    + split; [done|]. split; [done|]. split; [split; [eauto|done]|].
      split; [split; [done|by intros [? ?]]|]. done.
    + split; [done|]. split; [done|].
      split; [split; [done|by intros [_ [? ?]]]|].
      split; [done|]. split; [done|]. split; [done|].
      split; [|done]. intros _. by apply delete_id.
  - change (run Router.delete req) with
      (run [Validation.validateTaskId; Controller.deleteTask] req).
    change (run Router.get_one req) with
      (run [Validation.validateTaskId; Controller.getTaskById] req).
    destruct (run_rejected_id [Controller.deleteTask] req w Hre) as [Hs Hw].
    rewrite Hw.
    destruct (run_rejected_id [Controller.getTaskById] req w Hre) as [Hg _].
    rewrite Hs, Hg. split_and!; try done; split; (done || by intros [? ?]).
Qed.

Lemma run_post_passes host req w req' w1 :
  Validation.validateCreateTask host req w = (Next req', w1) →
  let id := randomUUID host (uuidsDrawn w1) in
  ∃ task,
    TaskStore.createTask host (body req') w1
    = (Return task,
       {| tasks := <[id := task]> (tasks w1);
          clockReads := S (S (clockReads w1));
          uuidsDrawn := S (uuidsDrawn w1) |}) ∧
    get task "id" = VStr id ∧
    run (Router.post host) req w
    = ({| status := 201;
          json := BTask (Some "Task created successfully") task |},
       {| tasks := <[id := task]> (tasks w1);
          clockReads := S (S (clockReads w1));
          uuidsDrawn := S (uuidsDrawn w1) |}).
Proof.
  intros Hv id.
  destruct (validateCreateTask_Next host req w req' w1 Hv)
    as (_ & _ & _ & _ & _ & _ & Hconv & _).
  destruct (conversion_returns host _ Hconv) as [date Hdate].
  destruct (createTask_run host (body req') w1 date Hdate)
    as (task & Hrun & Hid & _).
  exists task. split; [done|]. split; [done|].
  unfold Router.post. cbn [run]. unfold bind at 1. rewrite Hv.
  unfold Controller.createTask, bind, ret. rewrite try_catch_run, bindE_run.
  by rewrite Hrun.
Qed.

Lemma run_post_fails host req w err w1 :
  Validation.validateCreateTask host req w = (NextError err, w1) →
  run (Router.post host) req w = (errorHandler err, w1).
Proof.
  intros Hv. unfold Router.post. cbn [run]. unfold bind at 1. by rewrite Hv.
Qed.

(** X15.  The create route answers 201 exactly when the payload passes
    create-mode validation, 500 exactly when the payload's dueDate cannot
    be converted to a primitive value, and 400 in every other case.  On
    400 and on 500 the store is as it was and no identifier has been
    drawn; on 201 one identifier has been drawn, the returned task carries
    it as id, and the store differs from the old one by just that task
    under that identifier. *)
Theorem post_answers host req w :
  let r := run (Router.post host) req w in
  let passes := ∃ req', (Validation.validateCreateTask host req w).1 = Next req' in
  let throws := conversion_throws (get (body req) "dueDate") = true in
  let id := randomUUID host (uuidsDrawn w) in
  (status r.1 = 201 ↔ passes) ∧
  (status r.1 = 500 ↔ throws) ∧
  (status r.1 = 400 ↔ ¬ passes ∧ ¬ throws) ∧
  (status r.1 ≠ 201 → tasks r.2 = tasks w ∧ uuidsDrawn r.2 = uuidsDrawn w) ∧
  (status r.1 = 500 →
   r = ({| status := 500;
           json := BError "Cannot convert object to primitive value" 500 |}, w)) ∧
  (status r.1 = 201 →
   ∃ task, json r.1 = BTask (Some "Task created successfully") task ∧
           get task "id" = VStr id ∧
           tasks r.2 = <[id := task]> (tasks w) ∧
           uuidsDrawn r.2 = S (uuidsDrawn w)).
Proof.
  intros r passes throws id. subst r passes throws.
  destruct (create_validation_cases host req w) as (Ht & Hu & _ & Hcases).
  destruct (conversion_throws (get (body req) "dueDate")) eqn:Hconv.
  { destruct (run_post_throws host req w Hconv) as [Hv ->].
    rewrite Hv. cbn [fst snd status].
    split; [split; [done|by intros [? ?]]|].
    split; [done|]. split; [split; [done|by intros [_ ?]]|]. done. }
  destruct (Validation.validateCreateTask host req w) as [o w1] eqn:Hv.
  cbn [fst snd] in *.
  destruct Hcases as [(req' & -> & _)|(e & errors & ->)].
  - destruct (run_post_passes host req w req' w1 Hv) as (task & _ & Hid & ->).
    cbn [fst snd status json tasks uuidsDrawn].
    split; [split; [eauto|done]|]. split; [done|].
    split; [split; [done|]|].
    { intros [Hno _]. destruct Hno. eauto. }
    split; [done|]. split; [done|]. intros _. exists task.
    subst id. rewrite <- Hu, <- Ht. done.
  - rewrite (run_post_fails host req w _ w1 Hv), errorHandler_validation.
    cbn [fst snd status].
    split; [split; [done|by intros [? ?]]|]. split; [done|].
    split; [split; [|done]|].
    { intros _. split; [by intros [? ?]|done]. }
    done.
Qed.

Lemma run_put_fails host req w err w1 :
  Validation.regex_test Validation.uuidRegex (params_id req) = true →
  Validation.validateUpdateTask host req w = (NextError err, w1) →
  run (Router.put host) req w = (errorHandler err, w1).
Proof.
  intros Hid Hv. unfold Router.put. cbn [run]. unfold bind at 1.
  rewrite (validateTaskId_valid req w Hid). unfold bind at 1. by rewrite Hv.
Qed.

Lemma run_put_missing host req w :
  tasks w !! params_id req = None →
  run [Controller.updateTask host] req w = (Controller.not_found (params_id req), w).
Proof.
  intros H. cbn [run]. unfold Controller.updateTask, bind.
  rewrite try_catch_run, bindE_run.
  by rewrite (updateTask_missing host _ _ w H).
Qed.

(** X16.  The update route checks the id, then the payload, then whether
    the task exists.  For an id that is not well formed it answers 400.
    For a well-formed id it answers 500 exactly when the payload's dueDate
    cannot be converted to a primitive value; 400 exactly when the payload
    fails update-mode validation otherwise, also for an id under which
    nothing is stored; 404, naming the id, exactly when the payload passes
    and no task is stored under the id; 200 exactly when it passes and a
    task is stored.  It draws no identifier, leaves the store as it was
    unless it answers 200, and on 200 changes only the task under the id,
    to the task it returns. *)
Theorem put_answers host req w :
  let r := run (Router.put host) req w in
  let id := params_id req in
  let wellFormed := Validation.regex_test Validation.uuidRegex id in
  let passes := ∃ req', (Validation.validateUpdateTask host req w).1 = Next req' in
  let throws := conversion_throws (get (body req) "dueDate") = true in
  uuidsDrawn r.2 = uuidsDrawn w ∧
  (status r.1 = 400 ↔ wellFormed = false ∨ (¬ passes ∧ ¬ throws)) ∧
  (status r.1 = 500 ↔ wellFormed = true ∧ throws) ∧
  (status r.1 = 404 ↔ wellFormed = true ∧ passes ∧ tasks w !! id = None) ∧
  (status r.1 = 200 ↔ wellFormed = true ∧ passes ∧ is_Some (tasks w !! id)) ∧
  (status r.1 ≠ 200 → tasks r.2 = tasks w) ∧
  (status r.1 = 500 →
   r = ({| status := 500;
           json := BError "Cannot convert object to primitive value" 500 |}, w)) ∧
  (status r.1 = 404 → r.1 = Controller.not_found id) ∧
  (status r.1 = 200 →
   ∃ task, json r.1 = BTask (Some "Task updated successfully") task ∧
           tasks r.2 = <[id := task]> (tasks w)).
Proof.
  intros r id wellFormed passes throws. subst r wellFormed passes throws.
  destruct (Validation.regex_test Validation.uuidRegex id) eqn:Hre.
  2: { change (run (Router.put host) req w) with
         (run (Validation.validateTaskId ::
               [Validation.validateUpdateTask host; Controller.updateTask host]) req w).
       destruct (run_rejected_id
                   [Validation.validateUpdateTask host; Controller.updateTask host]
                   req w Hre) as [Hs Hw].
       rewrite Hs, Hw. split; [done|]. split; [split; [by left|done]|].
       split; [split; [done|by intros [? ?]]|].
       split; [split; [done|by intros [? ?]]|].
       split; [split; [done|by intros [? ?]]|]. done. }
  destruct (update_validation_cases host req w) as (Ht & Hu & _ & Hcases).
  destruct (conversion_throws (get (body req) "dueDate")) eqn:Hconv.
  { rewrite (run_put_fails host req w _ w Hre Hcases), errorHandler_conversion_error.
    rewrite Hcases. cbn [fst snd status].
    split; [done|]. split; [split; [done|]|].
    { intros [?|[_ Hno]]; [done|]. by destruct Hno. }
    split; [done|].
    split; [split; [done|by intros (_ & [? ?] & _)]|].
    split; [split; [done|by intros (_ & [? ?] & _)]|]. done. }
  destruct (Validation.validateUpdateTask host req w) as [o w1] eqn:Hv.
  cbn [fst snd] in *.
  destruct Hcases as [(req' & -> & _)|(e & errors & ->)].
  - destruct (validateUpdateTask_Next host req w req' w1 Hv)
      as (_ & _ & _ & Hid' & Hconv' & _).
    rewrite (put_validated host req w req' w1 Hre Hv).
    destruct (tasks w !! id) as [existingTask|] eqn:E.
    + assert (tasks w1 !! params_id req' = Some existingTask) as E1
        by (by rewrite Hid', Ht).
      destruct (put_found host req' w1 existingTask E1 Hconv') as (task & _ & ->).
      cbn [fst snd status json tasks uuidsDrawn]. rewrite Hid', Ht. fold id.
      split; [done|]. split; [split; [done|]|].
      { intros [?|[Hno _]]; [done|]. destruct Hno. eauto. }
      split; [split; [done|by intros [_ ?]]|].
      split; [split; [done|by intros (_ & _ & ?)]|].
      split; [split; [eauto|done]|].
      split; [done|]. split; [done|]. split; [done|]. eauto.
    + assert (tasks w1 !! params_id req' = None) as E1 by (by rewrite Hid', Ht).
      rewrite (run_put_missing host req' w1 E1). rewrite Hid'. fold id.
      cbn [fst snd status Controller.not_found].
      split; [done|]. split; [split; [done|]|].
      { intros [?|[Hno _]]; [done|]. destruct Hno. eauto. }
      split; [split; [done|by intros [_ ?]]|].
      split; [split; [eauto|done]|].
      split; [split; [done|by intros (_ & _ & [? ?])]|].
      split; [done|]. split; [done|]. done.
  - rewrite (run_put_fails host req w _ w1 Hre Hv), errorHandler_validation.
    cbn [fst snd status].
    split; [done|]. split; [split; [|done]|].
    { intros _. right. split; [by intros [? ?]|done]. }
    split; [split; [done|by intros [_ ?]]|].
    split; [split; [done|by intros (_ & [? ?] & _)]|].
    split; [split; [done|by intros (_ & [? ?] & _)]|]. done.
Qed.

(** X17.  A task that the create route has answered with 201 is found by
    the get-one route under its id, with the answer 200 and the very task
    the create route returned, provided the identifier drawn has the
    format that [validateTaskId] asks for. *)
Theorem post_then_get host req w anyBody :
  let r := run (Router.post host) req w in
  let id := randomUUID host (uuidsDrawn w) in
  Validation.regex_test Validation.uuidRegex id = true →
  status r.1 = 201 →
  ∃ task,
    json r.1 = BTask (Some "Task created successfully") task ∧
    run Router.get_one {| params_id := id; body := anyBody |} r.2
    = ({| status := 200; json := BTask None task |}, r.2).
Proof.
  intros r id Hre H201. subst r.
  destruct (create_validation_cases host req w) as (Ht & Hu & _ & Hcases).
  destruct (conversion_throws (get (body req) "dueDate")) eqn:Hconv.
  { destruct (run_post_throws host req w Hconv) as [_ Hrun].
    by rewrite Hrun in H201. }
  destruct (Validation.validateCreateTask host req w) as [o w1] eqn:Hv.
  cbn [fst snd] in *.
  destruct Hcases as [(req' & -> & _)|(e & errors & ->)].
  - destruct (run_post_passes host req w req' w1 Hv) as (task & _ & _ & ->).
    cbn [fst snd json]. exists task. split; [done|].
    rewrite run_get_one by done. cbn [params_id tasks].
    rewrite Hu. fold id. by rewrite lookup_insert_eq.
  - rewrite (run_post_fails host req w _ w1 Hv), errorHandler_validation in H201.
    done.
Qed.

(** The example task, created and fetched. *)
Lemma post_then_get_witness :
  let req := {| params_id := ""; body := obj [("title", VStr "Do taxes")] |} in
  let w1 := (run (Router.post Demo.ticking) req initialWorld).2 in
  status (run Router.get_one {| params_id := Demo.uuid; body := ∅ |} w1).1 = 200.
Proof.
  intros req w1.
  destruct (post_then_get Demo.ticking req initialWorld ∅)
    as (task & _ & Hget); [reflexivity|reflexivity|].
  fold w1 in Hget.
  change (status (run Router.get_one
                    {| params_id := randomUUID Demo.ticking (uuidsDrawn initialWorld);
                       body := ∅ |} w1).1 = 200).
  by rewrite Hget.
Defined.

(** ** What reaches the store *)

Lemma get_set_body req k v k' :
  get (body (Validation.set_body req k v)) k'
  = if decide (k = k') then v else get (body req) k'.
Proof.
  unfold Validation.set_body, get. cbn [body]. rewrite lookup_insert.
  by destruct (decide (k = k')).
Qed.

Lemma lookup_set_body req k v k' :
  body (Validation.set_body req k v) !! k'
  = if decide (k = k') then Some v else body req !! k'.
Proof. unfold Validation.set_body. cbn [body]. apply lookup_insert. Qed.

(** The title, description and dueDate that create-mode validation hands
    on. *)
Lemma validateCreateTask_handed_on host req w req' w1 :
  Validation.validateCreateTask host req w = (Next req', w1) →
  let b := body req in
  get (body req') "title"
  = (if truthy (get b "title")
     then VStr (Validation.sanitizeText host (get b "title")) else get b "title") ∧
  get (body req') "description"
  = (if truthy (get b "description")
     then VStr (Validation.sanitizeText host (get b "description"))
     else get b "description") ∧
  ∃ date,
    new_Date host (get b "dueDate") = Return date ∧
    get (body req') "dueDate"
    = (if truthy (get b "dueDate") then VDate date else get b "dueDate").
Proof.
  intros H b. unfold Validation.validateCreateTask, try_catch in H. fold b in H.
  rewrite bindE_run in H.
  destruct (Validation.validateDueDate host (get b "dueDate") w)
    as [[e|error] w'] eqn:Hdue; [|discriminate].
  rewrite !push_if_collect, collect_five, nonempty_test in H.
  destruct (collect _); [|discriminate].
  pose proof (validateDueDate_Return host _ _ _ _ Hdue) as Hconv.
  destruct (conversion_returns host _ Hconv) as [date Hdate].
  unfold bindE, completion, retE in H. rewrite Hdate in H.
  destruct (truthy (get b "dueDate")) eqn:Htr; injection H as <- <-.
  all: split_and!; [| |exists date; split; [done|]];
    repeat case_match; rewrite ?get_set_body; done.
Qed.

(** The title, description and dueDate that update-mode validation hands
    on. *)
Lemma validateUpdateTask_handed_on host req w req' w1 :
  Validation.validateUpdateTask host req w = (Next req', w1) →
  let b := body req in
  body req' !! "title"
  = (if isDefined (get b "title")
     then Some (VStr (Validation.sanitizeText host (get b "title")))
     else b !! "title") ∧
  body req' !! "description"
  = (if isDefined (get b "description")
     then Some (VStr (Validation.sanitizeText host (get b "description")))
     else b !! "description") ∧
  (isDefined (get b "dueDate") = false → body req' !! "dueDate" = b !! "dueDate") ∧
  (isDefined (get b "dueDate") = true →
   ∃ date, new_Date host (get b "dueDate") = Return date ∧
           body req' !! "dueDate" = Some (VDate date)).
Proof.
  intros H b. unfold Validation.validateUpdateTask, try_catch in H. fold b in H.
  destruct (_ && _); [discriminate|].
  rewrite bindE_run in H.
  match type of H with
  | context [(if isDefined (get b "dueDate") then bindE ?m ?k else ?r) w] =>
      destruct ((if isDefined (get b "dueDate") then bindE m k else r) w)
        as [[errors|error] w']
  end; [|discriminate].
  destruct (0 <? _); [discriminate|].
  unfold bindE, completion, retE in H.
  destruct (isDefined (get b "dueDate")) eqn:Hdef.
  - destruct (new_Date host (get b "dueDate")) as [date|error] eqn:Hdate;
      [|discriminate].
    injection H as <- <-.
    split_and!; [| |done|intros _; exists date; split; [done|]];
      repeat case_match; rewrite ?lookup_set_body; done.
  - injection H as <- <-.
    split_and!; [| | |done]; try intros _;
      repeat case_match; rewrite ?lookup_set_body; done.
Qed.

(** The record that an update stores for a stored task, once the payload
    has passed validation. *)
Lemma run_put_stored host req w req' w1 existingTask :
  Validation.regex_test Validation.uuidRegex (params_id req) = true →
  Validation.validateUpdateTask host req w = (Next req', w1) →
  tasks w !! params_id req = Some existingTask →
  ∃ date,
    new_Date host (get (body req') "dueDate") = Return date ∧
    let updatedTask : Obj :=
      <["updatedAt" := VDate (Some (clock host (clockReads w1)))]> (
      <["dueDate" := if isDefined (get (body req') "dueDate")
                     then VDate date else get existingTask "dueDate"]>
        (spread existingTask (body req'))) in
    (run (Router.put host) req w).1
    = {| status := 200;
         json := BTask (Some "Task updated successfully") updatedTask |} ∧
    tasks (run (Router.put host) req w).2 !! params_id req = Some updatedTask.
Proof.
  intros Hre Hv Hex.
  destruct (validateUpdateTask_Next host req w req' w1 Hv)
    as (_ & _ & Ht & Hid' & Hconv & _).
  rewrite (put_validated host req w req' w1 Hre Hv).
  assert (tasks w1 !! params_id req' = Some existingTask) as E1
    by (by rewrite Hid', Ht).
  destruct (conversion_returns host _ Hconv) as [date Hdate].
  exists date. split; [done|].
  pose proof (updateTask_run host (params_id req') (body req') existingTask w1 date
                E1 Hdate) as Hrun.
  cbv zeta in Hrun. cbn [run]. unfold Controller.updateTask, bind.
  rewrite try_catch_run, bindE_run, Hrun. unfold retE, ret. cbn [fst snd tasks].
  split; [done|]. rewrite Hid'. by rewrite lookup_insert_eq.
Qed.

Lemma validateTitle_None v :
  Validation.validateTitle v = None →
  ∃ s, v = VStr s ∧ 3 <= JS.length (trim s) <= 100.
Proof.
  unfold Validation.validateTitle.
  destruct v as [| | | |s| |]; try done. intros H. exists s. split; [done|].
  destruct (Z.ltb_spec (JS.length (trim s)) 3); [done|].
  destruct (Z.ltb_spec 100 (JS.length (trim s))); [done|]. lia.
Qed.

Lemma validateDescription_None v :
  Validation.validateDescription v = None →
  isNullish v = true ∨ ∃ s, v = VStr s.
Proof.
  unfold Validation.validateDescription.
  destruct v as [| | | |s| |]; try done; try (by left). right. eauto.
Qed.

(** X18.  When a create payload passes validation, its title is a string
    and the task created has as title the sanitized text of it; its
    description is the sanitized text of the payload's when that is a
    non-empty string, and the payload's own value (absent, null or the
    empty string) otherwise. *)
Theorem created_text_is_sanitized host req w req' w1 :
  Validation.validateCreateTask host req w = (Next req', w1) →
  let created := (run (Router.post host) req w) in
  let title := get (body req) "title" in
  let description := get (body req) "description" in
  ∃ task,
    json created.1 = BTask (Some "Task created successfully") task ∧
    tasks created.2 !! randomUUID host (uuidsDrawn w1) = Some task ∧
    (∃ s, title = VStr s) ∧
    get task "title" = VStr (Validation.sanitizeText host title) ∧
    get task "description"
    = (if truthy description
       then VStr (Validation.sanitizeText host description) else description) ∧
    (truthy description = false →
     description = VUndefined ∨ description = VNull ∨ description = VStr "").
Proof.
  intros Hv created title description. subst created.
  destruct (run_post_passes host req w req' w1 Hv) as (task & Hrun & _ & ->).
  cbn [fst snd json tasks].
  destruct (validateCreateTask_Next host req w req' w1 Hv)
    as (Ht & Hd & _ & _ & _ & _ & Hconv & _).
  destruct (validateCreateTask_handed_on host req w req' w1 Hv) as (Et & Ed & _).
  destruct (conversion_returns host _ Hconv) as [date Hdate].
  destruct (createTask_run host (body req') w1 date Hdate)
    as (task' & Hrun' & _ & Htitle & Hdesc & _).
  rewrite Hrun in Hrun'. injection Hrun' as <-.
  fold title in Ht, Et. fold description in Hd, Ed.
  apply validateTitle_None in Ht as (s & Hs & Hlen).
  assert (truthy title = true) as Htruthy.
  { rewrite Hs. cbn. destruct (String.eqb_spec s ""); [|done].
    subst s. change (JS.length (trim "")) with 0 in Hlen. lia. }
  rewrite Htruthy in Et.
  exists task. split; [done|]. split; [by rewrite lookup_insert_eq|].
  split; [eauto|]. split; [by rewrite Htitle|]. split; [by rewrite Hdesc|].
  intros Hfalsy. apply validateDescription_None in Hd as [Hn|(d & Hd)].
  - destruct description; try done; auto.
  - rewrite Hd in Hfalsy |- *. cbn in Hfalsy.
    destruct (String.eqb_spec d ""); [subst d; auto|done].
Qed.

(** A title in bold with a plain description. *)
Lemma created_text_is_sanitized_witness :
  let req := {| params_id := "";
                body := obj [("title", VStr " <b>Do taxes</b> ");
                             ("description", VStr "by Friday")] |} in
  ∃ task,
    json (run (Router.post Demo.ticking) req initialWorld).1
    = BTask (Some "Task created successfully") task ∧
    get task "title" = VStr "&lt;b&gt;Do taxes&lt;/b&gt;".
Proof.
  intros req.
  destruct (created_text_is_sanitized Demo.ticking req initialWorld
              {| params_id := "";
                 body := obj [("title", VStr "&lt;b&gt;Do taxes&lt;/b&gt;");
                              ("description", VStr "by Friday")] |}
              initialWorld)
    as (task & Hjson & _ & _ & Htitle & _).
  - reflexivity.
  - exists task. split; [exact Hjson|exact Htitle].
Defined.

(** X19.  When an update of a stored task passes validation, a title that
    the payload defines is stored as the sanitized text of it, and so is a
    description that the payload defines, also when that description is
    null: the update stores the string that sanitizing null gives, where
    the create path keeps the null. *)
Theorem updated_text_is_sanitized host req w req' w1 existingTask :
  Validation.regex_test Validation.uuidRegex (params_id req) = true →
  Validation.validateUpdateTask host req w = (Next req', w1) →
  tasks w !! params_id req = Some existingTask →
  let title := get (body req) "title" in
  let description := get (body req) "description" in
  ∃ task,
    tasks (run (Router.put host) req w).2 !! params_id req = Some task ∧
    (isDefined title = true →
     get task "title" = VStr (Validation.sanitizeText host title)) ∧
    (isDefined description = true →
     get task "description" = VStr (Validation.sanitizeText host description)).
Proof.
  intros Hre Hv Hex title description.
  destruct (run_put_stored host req w req' w1 existingTask Hre Hv Hex)
    as (date & _ & _ & Hstored).
  destruct (validateUpdateTask_handed_on host req w req' w1 Hv) as (Et & Ed & _).
  fold title in Et. fold description in Ed.
  eexists. split; [exact Hstored|]. split.
  - intros Hdef. rewrite Hdef in Et. rewrite !get_insert_ne by done.
    by apply get_spread_present.
  - intros Hdef. rewrite Hdef in Ed. rewrite !get_insert_ne by done.
    by apply get_spread_present.
Qed.

(** The example task, given a null description. *)
Lemma updated_text_is_sanitized_witness :
  let w1 := (run (Router.post Demo.ticking)
               {| params_id := ""; body := obj [("title", VStr "Do taxes")] |}
               initialWorld).2 in
  let req := {| params_id := Demo.uuid; body := obj [("description", VNull)] |} in
  ∃ task,
    tasks (run (Router.put Demo.ticking) req w1).2 !! Demo.uuid = Some task ∧
    get task "description" = VStr "".
Proof.
  intros w1 req.
  destruct (updated_text_is_sanitized Demo.ticking req w1
              {| params_id := Demo.uuid; body := obj [("description", VStr "")] |}
              w1 (default ∅ (tasks w1 !! Demo.uuid)))
    as (task & Hstored & _ & Hdesc).
  - reflexivity.
  - reflexivity.
  - reflexivity.
  - exists task. split; [exact Hstored|]. by apply Hdesc.
Defined.

(** X20.  When a create payload passes validation, the dueDate of the
    task created is undefined when the payload's dueDate is absent, null
    or another falsy value, and otherwise the valid [Date] that the
    payload's dueDate denotes; it is never null and never an Invalid
    Date. *)
Theorem created_dueDate_is_valid host req w req' w1 :
  Validation.validateCreateTask host req w = (Next req', w1) →
  let dueDate := get (body req) "dueDate" in
  ∃ task,
    (TaskStore.createTask host (body req') w1).1 = Return task ∧
    json (run (Router.post host) req w).1
    = BTask (Some "Task created successfully") task ∧
    (truthy dueDate = false → get task "dueDate" = VUndefined) ∧
    (truthy dueDate = true →
     ∃ d, new_Date host dueDate = Return (Some d) ∧
          get task "dueDate" = VDate (Some d)).
Proof.
  intros Hv dueDate.
  destruct (run_post_passes host req w req' w1 Hv) as (task & Hrun & _ & ->).
  cbn [fst json]. exists task. rewrite Hrun. split; [done|]. split; [done|].
  destruct (validateCreateTask_Next host req w req' w1 Hv)
    as (_ & _ & _ & _ & Hdue & _ & Hconv & _).
  destruct (validateCreateTask_handed_on host req w req' w1 Hv)
    as (_ & _ & date & Hdate & Ed).
  destruct (conversion_returns host _ Hconv) as [date' Hdate'].
  destruct (createTask_run host (body req') w1 date' Hdate')
    as (task' & Hrun' & _ & _ & _ & _ & _ & Hstored & _).
  rewrite Hrun in Hrun'. injection Hrun' as <-.
  fold dueDate in Hdue, Ed, Hdate. rewrite Ed in Hstored, Hdate'.
  split.
  - intros Hf. rewrite Hf in Hstored. by rewrite Hf in Hstored.
  - intros Ht. rewrite Ht in Hstored, Hdate'. cbn [truthy new_Date] in Hstored, Hdate'.
    injection Hdate' as <-.
    assert (isNullish dueDate = false) as Hnn by (by destruct dueDate).
    destruct date as [d|].
    + eauto.
    + rewrite (validateDueDate_invalid host dueDate w Hnn Hdate) in Hdue. done.
Qed.

(** A task due on 2 November 2026, created on that day. *)
Lemma created_dueDate_is_valid_witness :
  let req := {| params_id := "";
                body := obj [("title", VStr "Do taxes");
                             ("dueDate", VStr "2026-11-02")] |} in
  ∃ task,
    json (run (Router.post Demo.ticking) req initialWorld).1
    = BTask (Some "Task created successfully") task ∧
    get task "dueDate" = VDate (Some 1793577600000).
Proof.
  intros req.
  destruct (created_dueDate_is_valid Demo.ticking req initialWorld
              {| params_id := "";
                 body := obj [("title", VStr "Do taxes");
                              ("dueDate", VDate (Some 1793577600000))] |}
              (tick (tick initialWorld)))
    as (task & _ & Hjson & _ & Hdue).
  - reflexivity.
  - exists task. split; [exact Hjson|].
    destruct Hdue as (d & Hd & ->); [reflexivity|].
    vm_compute in Hd. by injection Hd as <-.
Defined.

(** X21.  When an update of a stored task passes validation and the
    payload's status is neither absent nor null, the stored task's status
    becomes the payload's and is a member of the status enumeration;
    likewise priority. *)
Theorem updated_status_is_member host req w req' w1 existingTask :
  Validation.regex_test Validation.uuidRegex (params_id req) = true →
  Validation.validateUpdateTask host req w = (Next req', w1) →
  tasks w !! params_id req = Some existingTask →
  let status := get (body req) "status" in
  let priority := get (body req) "priority" in
  ∃ task,
    tasks (run (Router.put host) req w).2 !! params_id req = Some task ∧
    (isNullish status = false →
     get task "status" = status ∧ includes TaskStatus_values status = true) ∧
    (isNullish priority = false →
     get task "priority" = priority ∧ includes TaskPriority_values priority = true).
Proof.
  intros Hre Hv Hex status priority.
  destruct (run_put_stored host req w req' w1 existingTask Hre Hv Hex)
    as (date & _ & _ & Hstored).
  destruct (validateUpdateTask_Next host req w req' w1 Hv)
    as (Hs & Hp & Ht & _ & _ & Hsame & _).
  fold status in Hs. fold priority in Hp.
  eexists. split; [exact Hstored|].
  assert (∀ k v, k ≠ "title" → k ≠ "description" → k ≠ "dueDate" →
                 k ≠ "updatedAt" → get (body req) k = v → isNullish v = false →
                 get (<["updatedAt" := VDate (Some (clock host (clockReads w1)))]>
                   (<["dueDate" := if isDefined (get (body req') "dueDate")
                        then VDate date
                        else get existingTask "dueDate"]>
                      (spread existingTask (body req')))) k = v) as Hget.
  { intros k v H1 H2 H3 H4 Hk Hnn. rewrite !get_insert_ne by done.
    apply get_spread_present. rewrite Hsame by done.
    unfold get in Hk. destruct (body req !! k); [by subst|by subst v]. }
  split.
  - intros Hnn. split; [by apply Hget|].
    assert (Is_true (isDefined status)) as Hd by (by destruct status).
    destruct (validateStatus_None status (Hs Hd)); [congruence|done].
  - intros Hnn. split; [by apply Hget|].
    assert (Is_true (isDefined priority)) as Hd by (by destruct priority).
    destruct (validatePriority_None priority (Hp Hd)); [congruence|done].
Qed.

(** The example task, blocked. *)
Lemma updated_status_is_member_witness :
  let w1 := (run (Router.post Demo.ticking)
               {| params_id := ""; body := obj [("title", VStr "Do taxes")] |}
               initialWorld).2 in
  let req := {| params_id := Demo.uuid; body := obj [("status", VStr "blocked")] |} in
  ∃ task,
    tasks (run (Router.put Demo.ticking) req w1).2 !! Demo.uuid = Some task ∧
    get task "status" = VStr "blocked".
Proof.
  intros w1 req.
  destruct (updated_status_is_member Demo.ticking req w1 req w1
              (default ∅ (tasks w1 !! Demo.uuid)))
    as (task & Hstored & Hstatus & _).
  - reflexivity.
  - reflexivity.
  - reflexivity.
  - exists task. split; [exact Hstored|]. by apply Hstatus.
Defined.

(** ** The store, composed *)

(** X22.  Creating a task under an identifier that was free and then
    deleting it gives back the tasks the store held before, and the delete
    answers true.  (When [createTask] throws, on data whose dueDate cannot
    be converted to a primitive value, the store holds those tasks too,
    and the delete answers false.) *)
Theorem create_then_delete host taskData w :
  let id := randomUUID host (uuidsDrawn w) in
  tasks w !! id = None →
  let created := TaskStore.createTask host taskData w in
  let deleted := TaskStore.deleteTask id created.2 in
  deleted.1 = negb (conversion_throws (get taskData "dueDate")) ∧
  tasks deleted.2 = tasks w.
Proof.
  intros id Hfree created deleted. subst deleted created.
  unfold TaskStore.deleteTask. cbn [fst snd tasks].
  destruct (conversion_throws (get taskData "dueDate")) eqn:Hconv.
  { rewrite createTask_throws by done. cbn [snd tasks negb].
    split; [|by apply delete_id].
    apply bool_decide_eq_false. rewrite Hfree. by intros [? ?]. }
  destruct (conversion_returns host _ Hconv) as [date Hdate].
  destruct (createTask_run host taskData w date Hdate) as (task & -> & _).
  cbn [snd tasks negb]. fold id.
  rewrite lookup_insert_eq, delete_insert_id by done.
  split; [|done]. apply bool_decide_eq_true. eauto.
Qed.

(** On the empty store. *)
Lemma create_then_delete_witness :
  tasks (TaskStore.deleteTask Demo.uuid
           (TaskStore.createTask Demo.ticking (obj [("title", VStr "Do taxes")])
              initialWorld).2).2 = ∅.
Proof.
  destruct (create_then_delete Demo.ticking (obj [("title", VStr "Do taxes")])
              initialWorld) as [_ H].
  - reflexivity.
  - exact H.
Defined.

(** X23.  Applying the same update payload to a stored task a second time
    changes nothing but updatedAt: every other property of the record
    returned the second time has the value it had after the first.  (A
    payload whose dueDate cannot be converted to a primitive value makes
    both updates throw, and nothing changes at all.) *)
Theorem update_twice host w id existingTask taskData :
  tasks w !! id = Some existingTask →
  let first := TaskStore.updateTask host id taskData w in
  let second := TaskStore.updateTask host id taskData first.2 in
  if conversion_throws (get taskData "dueDate") then
    first = (Throw conversion_error, w) ∧ second = (Throw conversion_error, w)
  else
    ∃ task1 task2,
      first.1 = Return (Some task1) ∧ second.1 = Return (Some task2) ∧
      ∀ k, k ≠ "updatedAt" → get task2 k = get task1 k.
Proof.
  intros Hid first second. subst second first.
  destruct (conversion_throws (get taskData "dueDate")) eqn:Hconv.
  { rewrite !(updateTask_throws host id taskData existingTask w Hid Hconv).
    cbn [snd].
    by rewrite (updateTask_throws host id taskData existingTask w Hid Hconv). }
  destruct (conversion_returns host _ Hconv) as [date Hdate].
  pose proof (updateTask_run host id taskData existingTask w date Hid Hdate) as Hrun.
  cbv zeta in Hrun. rewrite Hrun. cbn [fst snd].
  set (task1 := <["updatedAt" := _]> _) in *.
  pose proof (updateTask_run host id taskData task1
                {| tasks := <[id := task1]> (tasks w);
                   clockReads := S (clockReads w);
                   uuidsDrawn := uuidsDrawn w |} date
                ltac:(apply lookup_insert_eq) Hdate) as Hrun2.
  cbv zeta in Hrun2. rewrite Hrun2. cbn [fst].
  eexists _, _. split; [done|]. split; [done|].
  intros k Hk. rewrite get_insert_ne by done.
  destruct (decide (k = "dueDate")) as [->|Hdd].
  - rewrite get_insert_eq. subst task1.
    rewrite !get_insert_ne by done. rewrite !get_insert_eq.
    by destruct (isDefined (get taskData "dueDate")).
  - rewrite get_insert_ne by done.
    destruct (taskData !! k) as [v|] eqn:E.
    + rewrite (get_spread_present _ _ _ _ E). subst task1.
      rewrite !get_insert_ne by done. by rewrite (get_spread_present _ _ _ _ E).
    + by rewrite (get_spread_absent _ _ _ E).
Qed.

(** The example task, completed twice. *)
Lemma update_twice_witness :
  let w1 := (TaskStore.createTask Demo.ticking (obj [("title", VStr "Do taxes")])
               initialWorld).2 in
  let payload := obj [("status", VStr "completed")] in
  let first := TaskStore.updateTask Demo.ticking Demo.uuid payload w1 in
  ∃ task1 task2,
    first.1 = Return (Some task1) ∧
    (TaskStore.updateTask Demo.ticking Demo.uuid payload first.2).1
    = Return (Some task2) ∧
    get task2 "title" = get task1 "title".
Proof.
  intros w1 payload first.
  destruct (update_twice Demo.ticking w1 Demo.uuid
              (default ∅ (tasks w1 !! Demo.uuid)) payload)
    as (task1 & task2 & H1 & H2 & Hsame).
  - reflexivity.
  - exists task1, task2. split; [exact H1|]. split; [exact H2|].
    apply Hsame. discriminate.
Defined.

(** X24.  After [clearAll] the count is 0, [getAllTasks] returns nothing
    and [getTaskById] finds nothing under any identifier; the clock
    readings and identifiers consumed so far are not reset, so a task
    created next gets the next identifier and is the only one stored.
    (Data whose dueDate cannot be converted to a primitive value make that
    [createTask] throw, and the store stays empty.) *)
Theorem clearAll_empties_the_store host taskData id w :
  let cleared := (TaskStore.clearAll w).2 in
  let created := TaskStore.createTask host taskData cleared in
  (TaskStore.getTaskCount cleared).1 = 0 ∧
  (TaskStore.getAllTasks cleared).1 = [] ∧
  (TaskStore.getTaskById id cleared).1 = None ∧
  clockReads cleared = clockReads w ∧ uuidsDrawn cleared = uuidsDrawn w ∧
  if conversion_throws (get taskData "dueDate") then
    created.1 = Throw conversion_error ∧
    (TaskStore.getTaskCount created.2).1 = 0
  else
    ∃ task,
      created.1 = Return task ∧
      get task "id" = VStr (randomUUID host (uuidsDrawn w)) ∧
      (TaskStore.getTaskCount created.2).1 = 1 ∧
      (TaskStore.getAllTasks created.2).1 = [task].
Proof.
  intros cleared created.
  assert (tasks cleared = ∅ ∧ uuidsDrawn cleared = uuidsDrawn w) as [Hempty Hdrawn]
    by done.
  unfold TaskStore.getTaskCount, TaskStore.getAllTasks, TaskStore.getTaskById.
  cbn [fst]. rewrite Hempty.
  rewrite map_size_empty, map_to_list_empty, lookup_empty.
  split; [done|]. split; [done|]. split; [done|]. split; [done|]. split; [done|].
  subst created.
  destruct (conversion_throws (get taskData "dueDate")) eqn:Hconv.
  { rewrite createTask_throws by done. cbn [fst snd tasks].
    by rewrite Hempty, map_size_empty. }
  destruct (conversion_returns host _ Hconv) as [date Hdate].
  destruct (createTask_run host taskData cleared date Hdate)
    as (task & -> & Hid & _).
  exists task. cbn [fst snd tasks]. rewrite Hempty, Hdrawn in *.
  rewrite insert_empty, map_size_singleton, map_to_list_singleton.
  split_and!; done.
Qed.

(** ** The error handler *)

(** X25.  The error handler answers with the error's status code, and
    with 500 when the error has none or has 0, so never with status 0.  An
    error that carries a non-empty list of field errors is answered with
    that list; any other error, also one with an empty list, is answered
    with its own message, or with [Internal Server Error] when the message
    is empty, together with the status code. *)
Theorem errorHandler_classifies err :
  let r := errorHandler err in
  status r ≠ 0 ∧
  (err_statusCode err = Some (status r) ∨
   status r = 500 ∧ (err_statusCode err = None ∨ err_statusCode err = Some 0)) ∧
  match json r with
  | BValidation msg errors =>
      msg = "Validation failed" ∧ errors ≠ [] ∧ err_errors err = Some errors
  | BError msg code =>
      code = status r ∧
      (err_errors err = None ∨ err_errors err = Some []) ∧
      (msg = err_message err ∧ msg ≠ "" ∨
       msg = "Internal Server Error" ∧ err_message err = "")
  | _ => False
  end.
Proof.
  intros r. subst r. unfold errorHandler.
  destruct err as [msg [code|] errors]; cbn [err_statusCode err_message err_errors].
  - destruct (Z.eqb_spec code 0) as [->|Hc];
      destruct errors as [[|e errors]|]; cbn [status json];
      (split; [done|]); (split; [auto|]);
      try done;
      (split; [done|]); (split; [auto|]);
      destruct (String.eqb_spec msg ""); auto.
  - destruct errors as [[|e errors]|]; cbn [status json];
      (split; [done|]); (split; [auto|]);
      try done;
      (split; [done|]); (split; [auto|]);
      destruct (String.eqb_spec msg ""); auto.
Qed.

(** ** Due dates that reach the store through an update *)

Lemma validateUpdateTask_dueDate_checked host req w req' w1 :
  Validation.validateUpdateTask host req w = (Next req', w1) →
  isDefined (get (body req) "dueDate") = true →
  (Validation.validateDueDate host (get (body req) "dueDate") w).1 = Return None.
Proof.
  intros Hv Hdef.
  pose proof (validateUpdateTask_outcome host req w) as Hout.
  cbv zeta in Hout. destruct (forallb _ _); [by rewrite Hv in Hout|].
  rewrite Hdef in Hout.
  destruct (Validation.validateDueDate host (get (body req) "dueDate") w)
    as [[e|error] w'] eqn:Hdue; cbn [fst snd] in *.
  - destruct Hout as [req'' Hout]. rewrite Hv in Hout.
    destruct (collect _) eqn:Hc; [|discriminate].
    by apply collect_nil in Hc as (_ & _ & _ & _ & ->).
  - rewrite Hv in Hout. discriminate.
Qed.

(** X26.  When an update of a stored task passes validation and the
    payload's dueDate is neither absent nor null, the stored task's dueDate
    becomes the valid [Date] that the payload's dueDate denotes, never an
    Invalid Date. *)
Theorem updated_dueDate_is_valid host req w req' w1 existingTask :
  Validation.regex_test Validation.uuidRegex (params_id req) = true →
  Validation.validateUpdateTask host req w = (Next req', w1) →
  tasks w !! params_id req = Some existingTask →
  let dueDate := get (body req) "dueDate" in
  isNullish dueDate = false →
  ∃ task d,
    tasks (run (Router.put host) req w).2 !! params_id req = Some task ∧
    new_Date host dueDate = Return (Some d) ∧
    get task "dueDate" = VDate (Some d).
Proof.
  intros Hre Hv Hex dueDate Hnn.
  assert (isDefined dueDate = true) as Hdef by (by destruct dueDate).
  pose proof (validateUpdateTask_dueDate_checked host req w req' w1 Hv Hdef) as Hok.
  fold dueDate in Hok.
  destruct (validateUpdateTask_handed_on host req w req' w1 Hv)
    as (_ & _ & _ & Ed).
  fold dueDate in Ed. destruct (Ed Hdef) as (date & Hdate & Ebody).
  destruct date as [d|].
  2: { by rewrite (validateDueDate_invalid host dueDate w Hnn Hdate) in Hok. }
  destruct (run_put_stored host req w req' w1 existingTask Hre Hv Hex)
    as (date' & Hdate' & _ & Hstored).
  assert (get (body req') "dueDate" = VDate (Some d)) as Eget
    by (unfold get; by rewrite Ebody).
  rewrite Eget in Hdate', Hstored. cbn [new_Date isDefined] in Hdate', Hstored.
  injection Hdate' as <-.
  eexists _, d. split; [exact Hstored|]. split; [done|].
  rewrite get_insert_ne by done. by rewrite get_insert_eq.
Qed.

(** The example task, made due on the day of the example. *)
Lemma updated_dueDate_is_valid_witness :
  let w1 := (run (Router.post Demo.ticking)
               {| params_id := ""; body := obj [("title", VStr "Do taxes")] |}
               initialWorld).2 in
  let req := {| params_id := Demo.uuid;
                body := obj [("dueDate", VStr "2026-11-02")] |} in
  ∃ task,
    tasks (run (Router.put Demo.ticking) req w1).2 !! Demo.uuid = Some task ∧
    get task "dueDate" = VDate (Some 1793577600000).
Proof.
  intros w1 req.
  destruct (updated_dueDate_is_valid Demo.ticking req w1
              {| params_id := Demo.uuid;
                 body := obj [("dueDate", VDate (Some 1793577600000))] |}
              (tick (tick w1)) (default ∅ (tasks w1 !! Demo.uuid)))
    as (task & d & Hstored & Hd & Hdue).
  - reflexivity.
  - reflexivity.
  - reflexivity.
  - reflexivity.
  - exists task. split; [exact Hstored|].
    vm_compute in Hd. injection Hd as <-. exact Hdue.
Defined.
